(** * AI Finance Assistant: the React client (frontend/src/App.js)

    A shallow embedding of the [App] component: its state, its event
    handlers, the asynchronous calls to the backend and the derived
    analytics, followed by the properties the specification states about
    them.

    - JavaScript strings are sequences of UTF-16 code units, numbers are
      binary64 floats (the kernel's primitive [float]).
    - A handler is a function on the component's state that emits
      effects and may throw; an [async] function is cut at its [await].
    - The running application is a transition system over events: what
      the user does on the rendered page and how requests settle. *)

From Stdlib Require Import ZArith Lia List String Ascii Floats.
From stdpp Require Import base option list gmap.

Local Open Scope Z_scope.

(** * Part I: the program *)

(** ** Strings *)

(** A JavaScript string is a sequence of UTF-16 code units. *)
Abbreviation jsstring := (list N).

(** A string literal of the source (ASCII only) as its code units. *)
Definition lit (s : string) : jsstring :=
  (fun a => N_of_ascii a) <$> list_ascii_of_string s.

(** White space and line terminators, as [String.prototype.trim] and
    [parseFloat] strip them. *)
Definition is_whitespace (c : N) : bool :=
  bool_decide (c ∈ [9; 10; 11; 12; 13; 32; 160; 5760; 8232; 8233; 8239; 8287; 12288; 65279]%N)
  || ((8192 <=? c) && (c <=? 8202))%N.

Fixpoint trimStart (s : jsstring) : jsstring :=
  match s with
  | c :: r => if is_whitespace c then trimStart r else s
  | [] => []
  end.

Definition trimEnd (s : jsstring) : jsstring := reverse (trimStart (reverse s)).

Definition trim (s : jsstring) : jsstring := trimEnd (trimStart s).

(** ToBoolean on a string: only the empty string is falsy. *)
Definition nonempty (s : jsstring) : bool :=
  match s with [] => false | _ => true end.

(** ** Numbers *)

(** A JavaScript number is an IEEE-754 binary64 value. *)
Abbreviation number := float.

(** ToBoolean on a number: [+0], [-0] and [NaN] are falsy. *)
Definition truthy (x : number) : bool := negb (is_zero x || is_nan x).

(** [Number.isFinite]. *)
Definition isFinite (x : number) : bool := is_finite x.

(** [array.length] as a number (exact: a JavaScript array holds fewer than
    2^32 elements). *)
Definition number_of_nat (n : nat) : number :=
  of_uint63 (Uint63.of_Z (Z.of_nat n)).

(** *** [parseFloat]

    The longest prefix of the input, after leading white space, that is a
    decimal literal (sign, digits, fraction, exponent, or [Infinity]) is
    read and rounded to the nearest number, ties to even; [NaN] when there
    is no such prefix. *)

Definition is_digit (c : N) : bool := ((48 <=? c) && (c <=? 57))%N.

Fixpoint span_digits (s : jsstring) : jsstring * jsstring :=
  match s with
  | c :: r => if is_digit c then let '(ds, t) := span_digits r in (c :: ds, t) else ([], s)
  | [] => ([], [])
  end.

Definition decimal (ds : jsstring) : Z :=
  foldl (fun acc d => 10 * acc + Z.of_N (d - 48)) 0 ds.

Definition strip_sign (s : jsstring) : bool * jsstring :=
  match s with
  | 43%N :: r => (false, r)
  | 45%N :: r => (true, r)
  | _ => (false, s)
  end.

Fixpoint starts_with (pre s : jsstring) : bool :=
  match pre, s with
  | [], _ => true
  | p :: pre', c :: s' => (p =? c)%N && starts_with pre' s'
  | _ :: _, [] => false
  end.

(** The number nearest to [m * 10^k], for [m >= 0], with the sign [neg]. *)
Definition round_decimal (neg : bool) (m k : Z) : number :=
  match m with
  | Zpos p =>
      SF2Prim (if 0 <=? k
               then binary_normalize prec emax (cond_Zopp neg (m * 10 ^ k)) 0 false
               else SFdiv prec emax (S754_finite neg p 0)
                                    (S754_finite false (Z.to_pos (10 ^ (- k))) 0))
  | _ => if neg then neg_zero else zero
  end.

Definition exponent_part (s : jsstring) : Z :=
  match s with
  | e :: r =>
      if ((e =? 101) || (e =? 69))%N then
        let '(eneg, r') := strip_sign r in
        let '(ds, _) := span_digits r' in
        match ds with [] => 0 | _ => cond_Zopp eneg (decimal ds) end
      else 0
  | [] => 0
  end.

Definition parseFloat (s : jsstring) : number :=
  let '(neg, t) := strip_sign (trimStart s) in
  if starts_with (lit "Infinity") t then (if neg then neg_infinity else infinity) else
  let '(int_digits, t1) := span_digits t in
  let '(frac_digits, t2) :=
    match t1 with
    | 46%N :: r => span_digits r
    | _ => ([], t1)
    end in
  match int_digits ++ frac_digits with
  | [] => nan
  | ds => round_decimal neg (decimal ds) (exponent_part t2 - Z.of_nat (length frac_digits))
  end.

(** ** Values exchanged with the backend *)

(** A JavaScript value as JSON carries it, with [undefined] for a missing
    property. *)
#[local] Unset Elimination Schemes.
Inductive Value :=
| VUndefined
| VNull
| VBool (b : bool)
| VNum (x : number)
| VStr (s : jsstring)
| VArr (items : list Value)
| VObj (props : list (jsstring * Value)).
#[local] Set Elimination Schemes.

(** An own property of an object literal. *)
Fixpoint own_prop (key : jsstring) (props : list (jsstring * Value)) : option Value :=
  match props with
  | (k, v) :: rest => if decide (k = key) then Some v else own_prop key rest
  | [] => None
  end.

(** What [JSON.stringify] keeps of a number: one that is not finite
    becomes [null]. *)
Definition stringify_number (x : number) : Value :=
  if isFinite x then VNum x else VNull.

Record Request := {
  url : jsstring;
  method : jsstring;
  headers : list (jsstring * jsstring);
  body : option Value       (* the value whose JSON text is the body *)
}.

(** The settled promise of [fetch]: rejected (network failure, abort,
    timeout of the connection), or a response with its [ok] flag whose
    [json()] either yields the decoded body or rejects (body is not JSON). *)
Record Response (A : Type) := { ok : bool; json : option A }.
Arguments ok {A} _.
Arguments json {A} _.

Inductive FetchResult (A : Type) :=
| Rejected
| Resolved (response : Response A).
Arguments Rejected {A}.
Arguments Resolved {A} _.

(** ** Expenses, as [GET /get-expenses] delivers them and the component
    reads them ([exp.amount], [exp.category], [exp.description],
    [exp.date]). *)
Record Expense := {
  amount : number;
  category : jsstring;
  description : jsstring;
  date : jsstring
}.

(** The decoded body of [GET /get-expenses]: [null], or a value whose
    [expenses] property is an array of expenses ([Some]) or is missing or
    falsy ([None]). *)
Inductive ExpensesData :=
| DataNull
| DataWith (expenses_prop : option (list Expense)).

(** ** Analytics *)

(** [t || 0] for [t] a number, or the [undefined] that reading a missing
    property gives. *)
Definition or0 (v : option number) : number :=
  match v with
  | Some x => if truthy x then x else 0%float
  | None => 0%float
  end.

(** What a property of the object [categoryTotals] can hold: a number, or
    the string that [+] makes when its left operand is a string or an
    object. *)
Inductive Total :=
| TNum (x : number)
| TStr (s : jsstring).

(** The members that the object literal [{}] inherits from
    [Object.prototype]: functions, all of them. *)
Definition Object_prototype : list jsstring :=
  lit <$> ["constructor"; "hasOwnProperty"; "isPrototypeOf"; "propertyIsEnumerable";
           "toLocaleString"; "toString"; "valueOf"; "__defineGetter__";
           "__defineSetter__"; "__lookupGetter__"; "__lookupSetter__"]%string.

(** The accessor [__proto__] of [Object.prototype]: read, it gives the
    prototype, an object; assigned anything but an object or [null], it
    does nothing. *)
Definition proto : jsstring := lit "__proto__".

Section CategoryData.

(** A number as a string ([Number::toString]) and the text of the native
    function that [Object.prototype] has under a name
    ([Function.prototype.toString]), as the browser provides them. *)
Variable Number_toString : number -> jsstring.
Variable Function_toString : jsstring -> jsstring.

(** [(categoryTotals[key] || 0) + x]. The read finds the own property, or
    else what [Object.prototype] has under that name, or else
    [undefined]; a function and an object are truthy, a string is unless
    it is empty. [+] adds two numbers; with a string, or with an object
    (which becomes a string first), it concatenates. *)
Definition plus_amount (totals : gmap jsstring Total) (key : jsstring) (x : number) : Total :=
  match totals !! key with
  | Some (TNum t) => TNum (or0 (Some t) + x)
  | Some (TStr s) => if nonempty s then TStr (s ++ Number_toString x) else TNum (0 + x)
  | None =>
      if decide (key = proto) then TStr (lit "[object Object]" ++ Number_toString x)
      else if decide (key ∈ Object_prototype)
           then TStr (Function_toString key ++ Number_toString x)
           else TNum (or0 None + x)
  end.

(** [categoryTotals[key] = v], for [v] a number or a string: the setter
    of [__proto__] ignores it; under any other name it becomes, or
    replaces, an own property. *)
Definition assign (totals : gmap jsstring Total) (key : jsstring) (v : Total)
    : gmap jsstring Total :=
  if decide (key = proto) then totals else <[key := v]> totals.

(** The object [categoryTotals] after the loop of [getCategoryData]: its
    own properties. *)
Definition categoryTotals (expenses : list Expense) : gmap jsstring Total :=
  foldl (fun totals exp =>
           assign totals (category exp) (plus_amount totals (category exp) (amount exp)))
        ∅ expenses.

Record CategoryEntry := { name : jsstring; value : Total }.

(** [Object.entries(categoryTotals).map(([name, value]) => ({ name, value }))].
    The order of the entries is the map's enumeration order; no property
    below depends on it. *)
Definition getCategoryData (expenses : list Expense) : list CategoryEntry :=
  (fun kv => {| name := kv.1; value := kv.2 |}) <$> map_to_list (categoryTotals expenses).

End CategoryData.

(** [expenses.reduce((sum, exp) => sum + exp.amount, 0)]. *)
Definition totalExpenses (expenses : list Expense) : number :=
  foldl (fun sum exp => (sum + amount exp)%float) 0%float expenses.

(** ** The component's state: one field per [useState] *)

Record Message := { role : jsstring; content : Value }.

Record NewExpense := {
  new_amount : jsstring;
  new_category : jsstring;
  new_description : jsstring
}.

Record State := {
  expenses : list Expense;
  messages : list Message;
  query : jsstring;
  newExpense : NewExpense;
  loading : bool;
  activeTab : jsstring
}.

Definition API_URL : jsstring := lit "http://localhost:8000".

Definition COLORS : list jsstring :=
  lit <$> ["#3b82f6"; "#ef4444"; "#10b981"; "#f59e0b";
           "#8b5cf6"; "#ec4899"; "#06b6d4"; "#84cc16"]%string.

Definition emptyExpense : NewExpense :=
  {| new_amount := []; new_category := []; new_description := [] |}.

Definition initialState : State :=
  {| expenses := []; messages := []; query := []; newExpense := emptyExpense;
     loading := false; activeTab := lit "chat" |}.

Definition setExpenses (v : list Expense) (s : State) : State :=
  {| expenses := v; messages := messages s; query := query s;
     newExpense := newExpense s; loading := loading s; activeTab := activeTab s |}.

(** [setMessages(prev => ...)]: the update reads the state current when
    it is applied. *)
Definition setMessages (f : list Message -> list Message) (s : State) : State :=
  {| expenses := expenses s; messages := f (messages s); query := query s;
     newExpense := newExpense s; loading := loading s; activeTab := activeTab s |}.

Definition setQuery (v : jsstring) (s : State) : State :=
  {| expenses := expenses s; messages := messages s; query := v;
     newExpense := newExpense s; loading := loading s; activeTab := activeTab s |}.

Definition setNewExpense (v : NewExpense) (s : State) : State :=
  {| expenses := expenses s; messages := messages s; query := query s;
     newExpense := v; loading := loading s; activeTab := activeTab s |}.

Definition setLoading (v : bool) (s : State) : State :=
  {| expenses := expenses s; messages := messages s; query := query s;
     newExpense := newExpense s; loading := v; activeTab := activeTab s |}.

Definition setActiveTab (v : jsstring) (s : State) : State :=
  {| expenses := expenses s; messages := messages s; query := query s;
     newExpense := newExpense s; loading := loading s; activeTab := v |}.

(** ** Handlers: state updates, effects and exceptions

    A handler runs on the current state, may emit effects (requests,
    alerts, console output) and completes normally or by throwing. An
    [async] function is split at its [await]: the part that issues the
    request, and the part resumed with the settled promise. *)

Inductive Call := GetExpenses | AddExpense | Query.

Inductive Effect :=
| Fetch (call : Call) (request : Request)
| Alert (text : jsstring)
| ConsoleError (text : jsstring)
| PreventDefault.

Inductive Error := NetworkError | SyntaxError | TypeError.

Inductive Completion (A : Type) :=
| Normal (a : A)
| Throw (e : Error).
Arguments Normal {A} _.
Arguments Throw {A} _.

Definition Store : Type := State * list Effect.

Definition M (A : Type) : Type := Store -> Completion A * Store.

Definition ret {A} (a : A) : M A := fun st => (Normal a, st).

Definition bind {A B} (m : M A) (k : A -> M B) : M B :=
  fun st =>
    match m st with
    | (Normal a, st') => k a st'
    | (Throw e, st') => (Throw e, st')
    end.

Notation "x <- m ;; k" := (bind m (fun x => k))
  (at level 100, m at next level, right associativity).
Notation "m ;; k" := (bind m (fun _ => k))
  (at level 100, right associativity).

Definition throw {A} (e : Error) : M A := fun st => (Throw e, st).

Definition get : M State := fun st => (Normal st.1, st).

Definition modify (f : State -> State) : M unit :=
  fun st => (Normal tt, (f st.1, st.2)).

Definition emit (e : Effect) : M unit :=
  fun st => (Normal tt, (st.1, st.2 ++ [e])).

(** [try { body } catch (error) { handler }] *)
Definition try_catch {A} (body : M A) (handler : Error -> M A) : M A :=
  fun st =>
    match body st with
    | (Normal a, st') => (Normal a, st')
    | (Throw e, st') => handler e st'
    end.

(** [try { body } finally { finalizer }]: the finalizer always runs; its
    own exception, if any, replaces the completion of the body. *)
Definition try_finally {A} (body : M A) (finalizer : M unit) : M A :=
  fun st =>
    match body st with
    | (c, st') =>
        match finalizer st' with
        | (Normal _, st'') => (c, st'')
        | (Throw e, st'') => (Throw e, st'')
        end
    end.

(** [await fetch(...)] and [await response.json()], resumed. *)
Definition await_fetch {A} (r : FetchResult A) : M (Response A) :=
  match r with
  | Rejected => throw NetworkError
  | Resolved response => ret response
  end.

Definition await_json {A} (response : Response A) : M A :=
  match json response with
  | Some data => ret data
  | None => throw SyntaxError
  end.

(** [data.response]: a TypeError on [null]; [undefined] when the decoded
    value has no such property. *)
Definition data_response (data : Value) : M Value :=
  match data with
  | VNull | VUndefined => throw TypeError
  | VObj props => ret (default VUndefined (own_prop (lit "response") props))
  | _ => ret VUndefined
  end.

(** [data.expenses || []] *)
Definition data_expenses (data : ExpensesData) : M (list Expense) :=
  match data with
  | DataNull => throw TypeError
  | DataWith prop => ret (default [] prop)
  end.

(** ** The three requests *)

Definition json_headers : list (jsstring * jsstring) :=
  [(lit "Content-Type", lit "application/json")].

(** [fetch(`${API_URL}/get-expenses`)] *)
Definition expensesRequest : Request :=
  {| url := API_URL ++ lit "/get-expenses"; method := lit "GET";
     headers := []; body := None |}.

(** The request of [addExpenseToBackend]; [now] is
    [new Date().toISOString()]. *)
Definition addExpenseRequest (form : NewExpense) (now : jsstring) : Request :=
  {| url := API_URL ++ lit "/add-expense"; method := lit "POST"; headers := json_headers;
     body := Some (VObj
       [(lit "user_id", VStr (lit "user_1"));
        (lit "amount", stringify_number (parseFloat (new_amount form)));
        (lit "category", VStr (new_category form));
        (lit "description", VStr (new_description form));
        (lit "date", VStr now)]) |}.

(** The request of [sendQueryToBackend]. *)
Definition queryRequest (queryText : jsstring) : Request :=
  {| url := API_URL ++ lit "/query"; method := lit "POST"; headers := json_headers;
     body := Some (VObj [(lit "user_id", VStr (lit "user_1"));
                         (lit "query", VStr queryText)]) |}.

(** ** The handlers *)

(** [fetchExpenses], up to its first [await]. *)
Definition fetchExpenses : M unit :=
  emit (Fetch GetExpenses expensesRequest).

Definition fetchExpenses_resume (r : FetchResult ExpensesData) : M unit :=
  try_catch
    (response <- await_fetch r ;;
     data <- await_json response ;;
     found <- data_expenses data ;;
     modify (setExpenses found))
    (fun error => emit (ConsoleError (lit "Error fetching expenses:"))).

(** [addExpenseToBackend], up to its first [await]. *)
Definition addExpenseToBackend (now : jsstring) : M unit :=
  s <- get ;;
  emit (Fetch AddExpense (addExpenseRequest (newExpense s) now)).

Definition addExpenseToBackend_resume (r : FetchResult Value) : M unit :=
  try_catch
    (response <- await_fetch r ;;
     if ok response then
       modify (setNewExpense emptyExpense) ;;
       fetchExpenses ;;
       emit (Alert (lit "Expense added successfully!"))
     else ret tt)
    (fun error =>
       emit (ConsoleError (lit "Error adding expense:")) ;;
       emit (Alert (lit "Failed to add expense. Please try again."))).

Definition handleAddExpense (now : jsstring) : M unit :=
  emit PreventDefault ;;
  addExpenseToBackend now.

(** [sendQueryToBackend], up to its first [await]. *)
Definition sendQueryToBackend (queryText : jsstring) : M unit :=
  emit (Fetch Query (queryRequest queryText)).

Definition apology : jsstring :=
  lit "Sorry, I encountered an error processing your request.".

Definition sendQueryToBackend_resume (r : FetchResult Value) : M unit :=
  try_finally
    (try_catch
       (response <- await_fetch r ;;
        data <- await_json response ;;
        reply <- data_response data ;;
        let aiMessage := {| role := lit "assistant"; content := reply |} in
        modify (setMessages (fun prev => prev ++ [aiMessage])) ;;
        fetchExpenses)
       (fun error =>
          let errorMessage := {| role := lit "assistant"; content := VStr apology |} in
          modify (setMessages (fun prev => prev ++ [errorMessage]))))
    (modify (setLoading false)).

Definition handleQuery : M unit :=
  emit PreventDefault ;;
  s <- get ;;
  if negb (nonempty (trim (query s))) then ret tt
  else
    let userMessage := {| role := lit "user"; content := VStr (query s) |} in
    modify (setMessages (fun prev => prev ++ [userMessage])) ;;
    modify (setQuery []) ;;
    modify (setLoading true) ;;
    sendQueryToBackend (query s).

Definition handleSuggestionClick (suggestion : jsstring) : M unit :=
  modify (setQuery suggestion).

(** ** The running application

    The component's state together with the requests in flight, the
    effects performed so far and the exceptions no handler caught. *)

Record World := {
  app : State;
  inflight : list (Call * Request);
  performed : list Effect;
  uncaught : list Error
}.

Definition requests_of (effects : list Effect) : list (Call * Request) :=
  omap (fun e => match e with Fetch c r => Some (c, r) | _ => None end) effects.

(** Run a handler to completion on the current state. *)
Definition dispatch (h : M unit) (w : World) : World :=
  match h (app w, []) with
  | (c, (s, effects)) =>
      {| app := s;
         inflight := inflight w ++ requests_of effects;
         performed := performed w ++ effects;
         uncaught := uncaught w ++ match c with Throw e => [e] | Normal _ => [] end |}
  end.

Definition Call_eqb (a b : Call) : bool :=
  match a, b with
  | GetExpenses, GetExpenses | AddExpense, AddExpense | Query, Query => true
  | _, _ => false
  end.

(** The oldest request of a kind leaves the requests in flight. (Requests
    of one kind resume the same code, whichever of them settles.) *)
Fixpoint settle (c : Call) (pending : list (Call * Request)) : option (list (Call * Request)) :=
  match pending with
  | (c', r) :: rest =>
      if Call_eqb c c' then Some rest
      else cons (c', r) <$> settle c rest
  | [] => None
  end.

Definition resume (c : Call) (h : M unit) (w : World) : option World :=
  pending ← settle c (inflight w);
  Some (dispatch h {| app := app w; inflight := pending;
                      performed := performed w; uncaught := uncaught w |}).

Definition suggestions : list jsstring :=
  lit <$> ["Show my expenses for this week";
           "What category did I spend the most on?";
           "Summarize my monthly spending"]%string.

Definition category_options : list jsstring :=
  lit <$> [""; "Food"; "Transport"; "Entertainment"; "Shopping"; "Bills"; "Health"; "Other"]%string.

Definition tabs : list jsstring := lit <$> ["chat"; "expenses"; "analytics"]%string.

(** What the user and the network can do. *)
Inductive Event :=
| ChangeQuery (text : jsstring)          (* typing in the chat input *)
| ClickSuggestion (suggestion : jsstring)
| SubmitQuery                            (* Enter in the chat input, or the send button *)
| ChangeAmount (text : jsstring)
| ChangeCategory (option : jsstring)
| ChangeDescription (text : jsstring)
| ClickAddExpense (now : jsstring)
| ClickTab (tab : jsstring)
| GetExpensesSettled (r : FetchResult ExpensesData)
| AddExpenseSettled (r : FetchResult Value)
| QuerySettled (r : FetchResult Value).

Definition on_tab (tab : string) (s : State) : bool :=
  bool_decide (activeTab s = lit tab).

Definition guard (b : bool) (w : World) : option World :=
  if b then Some w else None.

(** One event. [None] when the rendered page does not offer it: the chat
    input and the send button are disabled while [loading], the key
    handler tests [!loading], the suggestions show only while there is no
    message, and each tab renders only its own controls. *)
Definition step (ev : Event) (w : World) : option World :=
  let s := app w in
  match ev with
  | ChangeQuery text =>
      guard (on_tab "chat" s && negb (loading s)) (dispatch (modify (setQuery text)) w)
  | ClickSuggestion suggestion =>
      guard (on_tab "chat" s && bool_decide (length (messages s) = 0%nat)
             && bool_decide (suggestion ∈ suggestions))
            (dispatch (handleSuggestionClick suggestion) w)
  | SubmitQuery =>
      guard (on_tab "chat" s && negb (loading s)) (dispatch handleQuery w)
  | ChangeAmount text =>
      guard (on_tab "expenses" s)
            (dispatch (modify (setNewExpense
               {| new_amount := text; new_category := new_category (newExpense s);
                  new_description := new_description (newExpense s) |})) w)
  | ChangeCategory option =>
      guard (on_tab "expenses" s && bool_decide (option ∈ category_options))
            (dispatch (modify (setNewExpense
               {| new_amount := new_amount (newExpense s); new_category := option;
                  new_description := new_description (newExpense s) |})) w)
  | ChangeDescription text =>
      guard (on_tab "expenses" s)
            (dispatch (modify (setNewExpense
               {| new_amount := new_amount (newExpense s);
                  new_category := new_category (newExpense s);
                  new_description := text |})) w)
  | ClickAddExpense now =>
      guard (on_tab "expenses" s) (dispatch (handleAddExpense now) w)
  | ClickTab tab =>
      guard (bool_decide (tab ∈ tabs)) (dispatch (modify (setActiveTab tab)) w)
  | GetExpensesSettled r => resume GetExpenses (fetchExpenses_resume r) w
  | AddExpenseSettled r => resume AddExpense (addExpenseToBackend_resume r) w
  | QuerySettled r => resume Query (sendQueryToBackend_resume r) w
  end.

Fixpoint run (evs : list Event) (w : World) : option World :=
  match evs with
  | [] => Some w
  | ev :: rest => w' ← step ev w; run rest w'
  end.

(** After the first render: the mount effect has called [fetchExpenses]. *)
Definition mounted : World :=
  dispatch fetchExpenses
    {| app := initialState; inflight := []; performed := []; uncaught := [] |}.

(** ** What the page shows *)

(** [expenses.slice().reverse()]: the expenses in the order the table
    lists them. *)
Definition shownExpenses (expenses : list Expense) : list Expense :=
  reverse expenses.

(** A row of the table: its key, the cells, and the badge colour
    [COLORS[idx % COLORS.length]]; the amount cell follows a rupee sign. *)
Record Row := {
  row_key : nat;
  row_date : jsstring;
  row_badge : option jsstring;
  row_category : jsstring;
  row_description : jsstring;
  row_amount : jsstring
}.

Section Rendering.

(** [x.toFixed(2)] and [new Date(d).toLocaleDateString()], as the browser
    provides them. *)
Variable toFixed2 : number -> jsstring.
Variable toLocaleDateString : jsstring -> jsstring.

Definition renderRow (idx : nat) (exp : Expense) : Row :=
  {| row_key := idx;
     row_date := toLocaleDateString (date exp);
     row_badge := COLORS !! (idx mod length COLORS)%nat;
     row_category := category exp;
     row_description := description exp;
     row_amount := toFixed2 (amount exp) |}.

(** The rows of the "Recent Expenses" table:
    [expenses.slice().reverse().map((exp, idx) => ...)]. *)
Definition recentExpenses (expenses : list Expense) : list Row :=
  imap renderRow (shownExpenses expenses).

(** The values of the "Total Expenses" and "Avg/Transaction" cards, each
    shown after a rupee sign:
    [totalExpenses.toFixed(2)] and
    [expenses.length > 0 ? (totalExpenses / expenses.length).toFixed(2) : '0.00']. *)
Definition totalDisplay (expenses : list Expense) : jsstring :=
  toFixed2 (totalExpenses expenses).

Definition averageDisplay (expenses : list Expense) : jsstring :=
  if (0 <? length expenses)%nat
  then toFixed2 (totalExpenses expenses / number_of_nat (length expenses))
  else lit "0.00".

End Rendering.

(** ** The weekly chart *)

Definition days : list jsstring :=
  lit <$> ["Sun"; "Mon"; "Tue"; "Wed"; "Thu"; "Fri"; "Sat"]%string.

(** An entry [{ day, amount }] of the weekly chart. *)
Record WeeklyEntry := { day : jsstring; day_amount : number }.

Section Weekly.

(** [new Date(d).getDay()], as the browser provides it in its time zone:
    the day of the week, or [None] for the [NaN] of a date that does not
    parse. *)
Variable getDay : jsstring -> option nat.

(** [days[date.getDay()]] as a property key: [undefined] reads as the key
    ["undefined"]. *)
Definition dayOf (exp : Expense) : jsstring :=
  default (lit "undefined") (getDay (date exp) ≫= (days !!.)).

(** The object [weeklyData] that [getWeeklyData] fills. *)
Definition weeklyData (expenses : list Expense) : gmap jsstring number :=
  foldl (fun totals exp =>
           <[dayOf exp := (or0 (totals !! dayOf exp) + amount exp)%float]> totals)
        ∅ expenses.

(** [days.map(day => ({ day, amount: weeklyData[day] || 0 }))] *)
Definition getWeeklyData (expenses : list Expense) : list WeeklyEntry :=
  (fun d => {| day := d; day_amount := or0 (weeklyData expenses !! d) |}) <$> days.

End Weekly.

(** ** The chat panel and the pie chart *)

(** A message as the chat panel renders it: the class of its [div], the
    label before the colon and the text. *)
Record Bubble := {
  bubble_class : jsstring;
  bubble_label : jsstring;
  bubble_text : Value
}.

(** Whether React accepts a value as a child, [<p>{v}</p>]: a string or a
    number is shown as text, a boolean, [null] and [undefined] as
    nothing, an array as its items; an object is refused ("Objects are
    not valid as a React child"). *)
Fixpoint renderable (v : Value) : bool :=
  match v with
  | VObj _ => false
  | VArr items => forallb renderable items
  | _ => true
  end.

(** One message of [messages.map(...)]: [None] when React throws on its
    content. *)
Definition renderMessage (msg : Message) : option Bubble :=
  if renderable (content msg)
  then Some
    {| bubble_class :=
         lit "message " ++ (if decide (role msg = lit "user")
                            then lit "user-message" else lit "ai-message");
       bubble_label := if decide (role msg = lit "user") then lit "You" else lit "AI";
       bubble_text := content msg |}
  else None.

(** The bubble shown while [loading]. *)
Definition thinking : Bubble :=
  {| bubble_class := lit "message ai-message"; bubble_label := lit "AI";
     bubble_text := VStr (lit "Thinking...") |}.

(** The bubbles of the chat panel: [messages.map(...)], then
    [loading && ...]. [None] when rendering throws: no error boundary
    catches it, and React unmounts the page. *)
Definition chatBubbles (s : State) : option (list Bubble) :=
  bubbles ← mapM renderMessage (messages s);
  Some (bubbles ++ (if loading s then [thinking] else [])).

(** The fill of each slice of the pie chart:
    [getCategoryData().map((entry, index) => COLORS[index % COLORS.length])]. *)
Definition pieFills (Number_toString : number -> jsstring)
    (Function_toString : jsstring -> jsstring) (expenses : list Expense)
    : list (option jsstring) :=
  imap (fun index entry => COLORS !! (index mod length COLORS)%nat)
       (getCategoryData Number_toString Function_toString expenses).

(** * Part II: the notions the specification uses *)

(** ** Sums *)

(** The sum of a list of numbers, added from left to right starting at 0. *)
Definition sum (xs : list number) : number :=
  foldl (fun acc x => (acc + x)%float) 0%float xs.



(** A property name that the object literal [{}] does not inherit: read
    from an object that has no own property of that name, it gives
    [undefined]. *)
Definition plain (k : jsstring) : bool := bool_decide (k ∉ proto :: Object_prototype).

(** The number is a whole number. *)
Definition is_integer (x : number) : bool :=
  match Prim2SF x with
  | S754_zero _ => true
  | S754_finite _ m e => (0 <=? e) || (Z.pos m mod 2 ^ (- e) =? 0)
  | _ => false
  end.

(** ** Binary64 values, on the specification of the kernel's floats *)

Module Float64.

(** A result that is neither a zero nor NaN, of sign [s]. *)
Definition signed_nonzero (s : bool) (r : spec_float) : Prop :=
  r = S754_infinity s \/ exists m e, r = S754_finite s m e.

(** What the accumulator of a left-to-right sum can be: any number but
    NaN and [-0]. *)
Definition sf_acc (x : spec_float) : Prop :=
  x <> S754_nan /\ x <> S754_zero true.

Definition sf_finite (x : spec_float) : Prop :=
  match x with
  | S754_zero _ | S754_finite _ _ _ => True
  | _ => False
  end.

Definition acc (t : float) : Prop := sf_acc (Prim2SF t).

End Float64.

(** ** Conversations *)

Definition userMessage (text : jsstring) : Message :=
  {| role := lit "user"; content := VStr text |}.

Definition assistantMessage (reply : Value) : Message :=
  {| role := lit "assistant"; content := reply |}.

(** A conversation: questions and answers appended in turn, and whether
    the last question still awaits its answer. *)
Inductive conversation : list Message -> bool -> Prop :=
| conversation_start : conversation [] false
| conversation_ask turns text :
    conversation turns false -> conversation (turns ++ [userMessage text]) true
| conversation_answer turns reply :
    conversation turns true -> conversation (turns ++ [assistantMessage reply]) false.

(** The roles alternate, starting with the user. *)
Fixpoint alternates (user_next : bool) (turns : list Message) : bool :=
  match turns with
  | [] => true
  | m :: rest =>
      bool_decide (role m = lit (if user_next then "user" else "assistant"))
      && alternates (negb user_next) rest
  end.

(** The settled query call makes the [try] block of [sendQueryToBackend]
    throw, so that its [catch] runs: [fetch] rejects (network error,
    timeout), [json()] rejects (the body is not JSON), or the body is
    [null], of which [response] cannot be read. The status of the
    response is not looked at. *)
Definition caught (r : FetchResult Value) : bool :=
  match r with
  | Rejected => true
  | Resolved response =>
      match json response with
      | None | Some VNull | Some VUndefined => true
      | Some _ => false
      end
  end.

(** The query call fails, as the specification has it: a network error
    or a timeout (the request is rejected), an error status from the
    backend, or a malformed reply (not JSON, or without a [response]). *)
Definition query_fails (r : FetchResult Value) : bool :=
  match r with
  | Rejected => true
  | Resolved response =>
      negb (ok response)
      || match json response with
         | Some (VObj props) =>
             match own_prop (lit "response") props with Some _ => false | None => true end
         | _ => true
         end
  end.

(** The [response] property of a decoded reply: [undefined] when it has
    none. *)
Definition reply_of (r : FetchResult Value) : Value :=
  match r with
  | Resolved {| json := Some (VObj props) |} =>
      default VUndefined (own_prop (lit "response") props)
  | _ => VUndefined
  end.

(** The call to add an expense succeeded: a response arrived and it is [ok]. *)
Definition succeeded {A} (r : FetchResult A) : bool :=
  match r with
  | Rejected => false
  | Resolved response => ok response
  end.

(** The queries among the requests in flight. *)
Definition queries_in (pending : list (Call * Request)) : list Request :=
  omap (fun cr => match cr.1 with Query => Some cr.2 | _ => None end) pending.

(** What an event can change of the conversation: the messages, the
    loading flag, the queries in flight and the uncaught exceptions. *)
Definition chat (w : World) : list Message * bool * list Request * list Error :=
  (messages (app w), loading (app w), queries_in (inflight w), uncaught w).

(** The state of a conversation that the events maintain. *)
Definition dialogue (c : list Message * bool * list Request * list Error) : Prop :=
  let '(turns, awaiting, queries, errors) := c in
  conversation turns awaiting /\
  errors = [] /\
  if awaiting
  then exists before text, turns = before ++ [userMessage text] /\ queries = [queryRequest text]
  else queries = [].

(** ** Tenant scope *)

(** The [user_id] a request carries, if any. *)
Definition request_user_id (r : Request) : option Value :=
  match body r with
  | Some (VObj props) => own_prop (lit "user_id") props
  | _ => None
  end.

(** The [amount] a request carries, if any. *)
Definition request_amount (r : Request) : option Value :=
  match body r with
  | Some (VObj props) => own_prop (lit "amount") props
  | _ => None
  end.

(** ** Order by date *)

(** [a <= b] on strings: code unit by code unit. ISO-8601 timestamps, as
    [toISOString] writes them, compare in time order. *)
Fixpoint jsstring_leb (a b : jsstring) : bool :=
  match a, b with
  | [], _ => true
  | _ :: _, [] => false
  | x :: a', y :: b' => (x <? y)%N || ((x =? y)%N && jsstring_leb a' b')
  end.

Definition no_later (a b : Expense) : bool := jsstring_leb (date a) (date b).

(** Ordered by date, latest first, and earliest first. *)
Fixpoint descending (l : list Expense) : bool :=
  match l with
  | x :: (y :: _) as rest => no_later y x && descending rest
  | _ => true
  end.

Fixpoint ascending (l : list Expense) : bool :=
  match l with
  | x :: (y :: _) as rest => no_later x y && ascending rest
  | _ => true
  end.

(** ** Sample data *)

Definition expense (c : string) (x : number) (day : string) : Expense :=
  {| amount := x; category := lit c; description := lit ""; date := lit day |}.

(** The transactions of the specification's scenario. *)
Definition scenario : list Expense :=
  [expense "Food" 200 "2024-05-02"; expense "Food" 150 "2024-05-20";
   expense "Transport" 80 "2024-05-10"].

Definition form_with (text : string) : NewExpense :=
  {| new_amount := lit text; new_category := lit "Food"; new_description := lit "Lunch" |}.

(** The world after some events from the mounted page (the mounted page
    itself when they cannot happen). *)
Definition after (evs : list Event) : World := default mounted (run evs mounted).

Definition question : jsstring := lit "How much did I spend on food in May 2024?".

(** ** Notions for the further properties *)

(** Every code unit is white space. *)
Definition blank (s : jsstring) : bool := forallb is_whitespace s.

(** The totals a loop of the form
    [totals[key] = (totals[key] || 0) + exp.amount] leaves, for any key. *)
Definition tally (key : Expense -> jsstring) (expenses : list Expense) : gmap jsstring number :=
  foldl (fun totals exp =>
           <[key exp := (or0 (totals !! key exp) + amount exp)%float]> totals)
        ∅ expenses.

(** The amounts of the expenses whose date falls on day [i] of the week. *)
Definition amounts_on (getDay : jsstring -> option nat) (i : nat)
    (expenses : list Expense) : list number :=
  amount <$> filter (fun e => getDay (date e) = Some i) expenses.

(** The state after an event, as a function of the state before. *)
Definition reduce (ev : Event) (s : State) : State :=
  match ev with
  | ChangeQuery text | ClickSuggestion text => setQuery text s
  | SubmitQuery =>
      if nonempty (trim (query s))
      then setLoading true
             (setQuery [] (setMessages (fun prev => prev ++ [userMessage (query s)]) s))
      else s
  | ChangeAmount text =>
      setNewExpense {| new_amount := text; new_category := new_category (newExpense s);
                       new_description := new_description (newExpense s) |} s
  | ChangeCategory option =>
      setNewExpense {| new_amount := new_amount (newExpense s); new_category := option;
                       new_description := new_description (newExpense s) |} s
  | ChangeDescription text =>
      setNewExpense {| new_amount := new_amount (newExpense s);
                       new_category := new_category (newExpense s);
                       new_description := text |} s
  | ClickAddExpense _ => s
  | ClickTab tab => setActiveTab tab s
  | GetExpensesSettled r =>
      match r with
      | Resolved {| json := Some (DataWith prop) |} => setExpenses (default [] prop) s
      | _ => s
      end
  | AddExpenseSettled r => if succeeded r then setNewExpense emptyExpense s else s
  | QuerySettled r =>
      setLoading false
        (setMessages (fun prev => prev ++ [assistantMessage
                        (if caught r then VStr apology else reply_of r)]) s)
  end.

(** The effects an event performs, as a function of the state before. *)
Definition effects_of (ev : Event) (s : State) : list Effect :=
  match ev with
  | SubmitQuery =>
      PreventDefault ::
      (if nonempty (trim (query s)) then [Fetch Query (queryRequest (query s))] else [])
  | ClickAddExpense now =>
      [PreventDefault; Fetch AddExpense (addExpenseRequest (newExpense s) now)]
  | GetExpensesSettled r =>
      match r with
      | Resolved {| json := Some (DataWith prop) |} => []
      | _ => [ConsoleError (lit "Error fetching expenses:")]
      end
  | AddExpenseSettled r =>
      match r with
      | Rejected => [ConsoleError (lit "Error adding expense:");
                     Alert (lit "Failed to add expense. Please try again.")]
      | Resolved response =>
          if ok response
          then [Fetch GetExpenses expensesRequest; Alert (lit "Expense added successfully!")]
          else []
      end
  | QuerySettled r => if caught r then [] else [Fetch GetExpenses expensesRequest]
  | _ => []
  end.

(** The kind of request whose settling an event is, if it is one. *)
Definition settled (ev : Event) : option Call :=
  match ev with
  | GetExpensesSettled _ => Some GetExpenses
  | AddExpenseSettled _ => Some AddExpense
  | QuerySettled _ => Some Query
  | _ => None
  end.

(** The expenses a run of events leaves: those of the last reply to
    [GET /get-expenses] that decoded to a value other than [null]. *)
Definition last_fetched (evs : list Event) (before : list Expense) : list Expense :=
  foldl (fun old ev =>
           match ev with
           | GetExpensesSettled (Resolved {| json := Some (DataWith prop) |}) => default [] prop
           | _ => old
           end) before evs.

(** An event after which the expenses are fetched again. *)
Definition refreshes (ev : Event) : bool :=
  match ev with
  | AddExpenseSettled r => succeeded r
  | QuerySettled r => negb (caught r)
  | _ => false
  end.

Definition is_refresh (e : Effect) : bool :=
  match e with Fetch GetExpenses _ => true | _ => false end.

Definition is_alert (e : Effect) : bool :=
  match e with Alert _ => true | _ => false end.

(** A request the client is written to send, with the kind it is sent as. *)
Definition known (e : Effect) : Prop :=
  match e with
  | Fetch GetExpenses r => r = expensesRequest
  | Fetch AddExpense r => exists form now, r = addExpenseRequest form now
  | Fetch Query r => exists text, blank text = false /\ r = queryRequest text
  | _ => True
  end.

(** [n] exchanges, as the chat panel labels them. *)
Definition exchange_labels (n : nat) : list jsstring :=
  mjoin (replicate n [lit "You"; lit "AI"]).

(** What the page keeps true of its controls. *)
Definition controls (w : World) : Prop :=
  activeTab (app w) ∈ tabs /\
  new_category (newExpense (app w)) ∈ category_options /\
  (loading (app w) = true -> query (app w) = []).

(** * Part III: properties *)

(** ** [parseFloat] on some inputs *)

Example parseFloat_fraction : parseFloat (lit "12.50") = 12.5%float.
Proof. vm_compute. reflexivity. Qed.

Example parseFloat_prefix : parseFloat (lit "  -3e2px") = (-300)%float.
Proof. vm_compute. reflexivity. Qed.

Example parseFloat_tie_to_even : parseFloat (lit "9007199254740993") = 9007199254740992%float.
Proof. vm_compute. reflexivity. Qed.

Example parseFloat_overflow : parseFloat (lit "1.7976931348623159e308") = infinity.
Proof. vm_compute. reflexivity. Qed.

Example parseFloat_empty : is_nan (parseFloat []) = true.
Proof. vm_compute. reflexivity. Qed.

(** ** Binary64 addition never leaves the numbers by itself

    Adding a finite number to anything but NaN and [-0] gives neither NaN
    nor [-0]: so [t || 0] never changes the running total of finite
    amounts. *)

Module Float64Facts.
Import Float64.

Lemma iter_pos_nat {A} (f : A -> A) (p : positive) (x : A) :
  SpecFloat.iter_pos f p x = Nat.iter (Pos.to_nat p) f x.
Proof.
  revert x. induction p as [p IH | p IH |]; intros x; simpl SpecFloat.iter_pos.
  - rewrite !IH, Pos2Nat.inj_xI.
    replace (S (2 * Pos.to_nat p))%nat
      with (Pos.to_nat p + (Pos.to_nat p + 1))%nat by lia.
    rewrite !Nat.iter_add. reflexivity.
  - rewrite !IH, Pos2Nat.inj_xO.
    replace (2 * Pos.to_nat p)%nat with (Pos.to_nat p + Pos.to_nat p)%nat by lia.
    rewrite Nat.iter_add. reflexivity.
  - reflexivity.
Qed.

(** One right shift of a mantissa removes one binary digit. *)
Lemma shr_1_digits mrs :
  0 <= shr_m mrs ->
  0 <= shr_m (shr_1 mrs) /\
  Zdigits2 (shr_m (shr_1 mrs)) = Z.max 0 (Zdigits2 (shr_m mrs) - 1).
Proof.
  destruct mrs as [m r s]. simpl shr_m at 1 3. intros Hm.
  destruct m as [| [p | p |] | p];
    cbn [shr_1 shr_m Zdigits2 digits2_pos orb]; rewrite ?Pos2Z.inj_succ; lia.
Qed.

Lemma shr_n_digits (n : nat) mrs :
  0 <= shr_m mrs ->
  0 <= shr_m (Nat.iter n shr_1 mrs) /\
  Zdigits2 (shr_m (Nat.iter n shr_1 mrs))
  = Z.max 0 (Zdigits2 (shr_m mrs) - Z.of_nat n).
Proof.
  intros Hm. induction n as [| n [IH1 IH2]].
  - simpl. split; [assumption |]. destruct (shr_m mrs); simpl; lia.
  - rewrite Nat.iter_succ. destruct (shr_1_digits _ IH1) as [H1 H2].
    split; [assumption |]. rewrite H2, IH2. lia.
Qed.

Lemma shr_m_of_loc m l : shr_m (shr_record_of_loc m l) = m.
Proof. destruct l as [| []]; reflexivity. Qed.

(** Rounding a positive mantissa whose exponent is at least [emin]
    leaves a positive mantissa. *)
Lemma shr_fexp_pos (p : positive) (e : Z) (l : location) :
  emin <= e ->
  exists q e', shr_fexp prec emax (Z.pos p) e l = (q, e') /\
               (exists m, shr_m q = Z.pos m) /\ emin <= e'.
Proof.
  intros He. unfold shr_fexp, shr.
  remember (Zdigits2 (Z.pos p)) as d eqn:Ed.
  assert (Hd : 0 < d) by (subst d; simpl; lia).
  destruct (fexp prec emax (d + e) - e) as [| k | k] eqn:Hk;
    try (eexists _, _; split; [reflexivity |]; rewrite shr_m_of_loc; eauto).
  eexists _, _; split; [reflexivity |].
  rewrite iter_pos_nat.
  destruct (shr_n_digits (Pos.to_nat k) (shr_record_of_loc (Z.pos p) l)) as [H0 Hdig].
  { rewrite shr_m_of_loc. lia. }
  rewrite shr_m_of_loc, <- Ed in Hdig.
  rewrite positive_nat_Z in Hdig.
  unfold fexp, SpecFloat.emin, prec, emax in *.
  split; [| lia].
  destruct (shr_m (Nat.iter (Pos.to_nat k) shr_1 (shr_record_of_loc (Z.pos p) l)))
    as [| m | m]; [cbn [Zdigits2] in Hdig; lia | eauto | lia].
Qed.

Lemma round_nearest_even_pos (m : positive) (l : location) :
  exists q, round_nearest_even (Z.pos m) l = Z.pos q.
Proof.
  destruct l as [| []]; simpl; eauto.
  destruct m; simpl; eauto.
Qed.

Lemma binary_round_aux_pos (s : bool) (p : positive) (e : Z) (l : location) :
  emin <= e -> signed_nonzero s (binary_round_aux prec emax s (Z.pos p) e l).
Proof.
  intros He. unfold binary_round_aux.
  destruct (shr_fexp_pos p e l He) as (q1 & e1 & -> & [m1 Hm1] & He1).
  rewrite Hm1.
  destruct (round_nearest_even_pos m1 (loc_of_shr_record q1)) as [m2 ->].
  destruct (shr_fexp_pos m2 e1 loc_Exact He1) as (q3 & e3 & -> & [m3 ->] & _).
  destruct (e3 <=? emax - prec); [right | left]; eauto.
Qed.

Lemma binary_round_pos (s : bool) (p : positive) (e : Z) :
  emin <= e -> signed_nonzero s (binary_round prec emax s p e).
Proof.
  intros He. unfold binary_round, shl_align.
  destruct (fexp prec emax (Z.pos (digits2_pos p) + e) - e) eqn:Hk;
    apply binary_round_aux_pos; try assumption.
  unfold fexp, SpecFloat.emin, prec, emax. lia.
Qed.

(** The exponent of a valid finite number is at least [emin]. *)
Lemma bounded_emin (m : positive) (e : Z) :
  bounded prec emax m e = true -> emin <= e.
Proof.
  unfold bounded, canonical_mantissa. intros H.
  apply andb_prop in H as [H _]. apply Z.eqb_eq in H.
  unfold fexp, SpecFloat.emin, prec, emax in *. lia.
Qed.

Lemma signed_nonzero_acc s r : signed_nonzero s r -> sf_acc r.
Proof. intros [-> | (m & e & ->)]; split; discriminate. Qed.

Lemma SFadd_acc (x y : spec_float) :
  valid_binary x = true -> valid_binary y = true ->
  sf_acc x -> sf_finite y -> sf_acc (SF64add x y).
Proof.
  intros Vx Vy [Hn Hz] Hy.
  destruct x as [sx | sx | | sx mx ex], y as [sy | sy | | sy my ey];
    try contradiction; try (split; discriminate); try congruence.
  - destruct sx; [congruence |]. destruct sy; split; discriminate.
  - unfold SF64add, SFadd. simpl in Vx, Vy.
    apply bounded_emin in Vx, Vy.
    set (m := (cond_Zopp sx _ + cond_Zopp sy _)).
    unfold binary_normalize.
    destruct m; [split; discriminate | |];
      eapply signed_nonzero_acc, binary_round_pos; lia.
Qed.

Lemma acc_zero : acc 0.
Proof. split; discriminate. Qed.

Lemma finite_sf (a : float) : is_finite a = true -> sf_finite (Prim2SF a).
Proof.
  unfold is_finite, Prim2SF. intros H.
  apply negb_true_iff, orb_false_iff in H as [-> ->].
  destruct (is_zero a); [exact I |].
  destruct (Z.frexp a) as [r ex].
  destruct (shr_fexp _ _ _ _ _) as [q e'].
  destruct (shr_m q); exact I.
Qed.

Lemma add_acc (t a : float) : acc t -> is_finite a = true -> acc (t + a).
Proof.
  unfold acc. intros Ht Ha. rewrite add_spec.
  apply SFadd_acc; auto using Prim2SF_valid, finite_sf.
Qed.

(** [t || 0] is [t] for every such accumulator. *)
Lemma or0_acc (t : float) : acc t -> or0 (Some t) = t.
Proof.
  intros [Hn Hz]. unfold or0, truthy.
  destruct (is_nan t) eqn:En.
  { exfalso. apply Hn. unfold Prim2SF. rewrite En. reflexivity. }
  destruct (is_zero t) eqn:Ez; [simpl | reflexivity].
  assert (E : Prim2SF t = S754_zero (get_sign t))
    by (unfold Prim2SF; rewrite En, Ez; reflexivity).
  rewrite E in Hz. destruct (get_sign t); [congruence |].
  rewrite <- (SF2Prim_Prim2SF t), E. reflexivity.
Qed.

(** [t || 0] is such an accumulator, whatever [t] is. *)
Lemma or0_is_acc (v : option number) : acc (or0 v).
Proof.
  destruct v as [t |]; [| apply acc_zero]. unfold or0, truthy.
  destruct (is_zero t) eqn:Ez; [apply acc_zero |].
  destruct (is_nan t) eqn:En; [apply acc_zero |]. cbn [orb negb].
  unfold acc, sf_acc, Prim2SF. rewrite En, Ez.
  destruct (is_infinity t); [split; discriminate |].
  destruct (Z.frexp t) as [r ex].
  destruct (shr_fexp _ _ _ _ _) as [q e'].
  destruct (shr_m q); split; discriminate.
Qed.

End Float64Facts.

(** ** Aggregation (C3) *)

Lemma sum_snoc (xs : list number) (a : number) : sum (xs ++ [a]) = (sum xs + a)%float.
Proof. unfold sum. apply foldl_snoc. Qed.

Lemma sum_acc (xs : list number) :
  Forall (fun a => isFinite a = true) xs -> Float64.acc (sum xs).
Proof.
  induction xs as [| a xs IH] using rev_ind; intros H.
  - apply Float64Facts.acc_zero.
  - apply Forall_app in H as [Hxs Ha]. rewrite Forall_singleton in Ha.
    rewrite sum_snoc. apply Float64Facts.add_acc; [auto | exact Ha].
Qed.

Lemma tally_snoc (key : Expense -> jsstring) (expenses : list Expense) (e : Expense) :
  tally key (expenses ++ [e])
  = <[key e := (or0 (tally key expenses !! key e) + amount e)%float]> (tally key expenses).
Proof. unfold tally. rewrite foldl_snoc. reflexivity. Qed.

Lemma amounts_finite (P : Expense -> Prop) `{!forall e, Decision (P e)}
    (expenses : list Expense) :
  Forall (fun e => isFinite (amount e) = true) expenses ->
  Forall (fun a => isFinite a = true) (amount <$> filter P expenses).
Proof.
  intros Hfin. apply Forall_fmap, Forall_forall. intros e He.
  apply list_elem_of_filter in He as [_ He]. eapply Forall_forall in Hfin; eauto.
Qed.

(** After the loop, [totals[k] || 0] is the sum of the amounts filed
    under [k]: 0 when there is none. *)
Lemma or0_tally (key : Expense -> jsstring) (expenses : list Expense) (k : jsstring) :
  Forall (fun e => isFinite (amount e) = true) expenses ->
  tally key expenses !! k
  = match amount <$> filter (fun e => key e = k) expenses with
    | [] => None
    | xs => Some (sum xs)
    end /\
  or0 (tally key expenses !! k) = sum (amount <$> filter (fun e => key e = k) expenses).
Proof.
  intros H.
  assert (L : tally key expenses !! k
              = match amount <$> filter (fun e => key e = k) expenses with
                | [] => None
                | xs => Some (sum xs)
                end).
  { induction expenses as [| e expenses IH] using rev_ind; [reflexivity |].
    apply Forall_app in H as [Hes He]. specialize (IH Hes).
    rewrite tally_snoc, filter_app, fmap_app, filter_cons, filter_nil.
    destruct (decide (key e = k)) as [Heq | Hne].
    - subst k. rewrite lookup_insert_eq, IH.
      pose proof (sum_acc _ (amounts_finite (fun x => key x = key e) _ Hes)) as Hacc.
      destruct (amount <$> filter (fun x => key x = key e) expenses) as [| x xs] eqn:E.
      + reflexivity.
      + rewrite Float64Facts.or0_acc by exact Hacc. cbn [fmap list_fmap].
        rewrite <- sum_snoc. reflexivity.
    - rewrite lookup_insert_ne by exact Hne. cbn [fmap list_fmap].
      rewrite app_nil_r. exact IH. }
  split; [exact L |]. rewrite L.
  pose proof (sum_acc _ (amounts_finite (fun x => key x = k) _ H)) as Hacc.
  destruct (amount <$> filter (fun x => key x = k) expenses); [reflexivity |].
  apply Float64Facts.or0_acc, Hacc.
Qed.

Lemma plain_spec (k : jsstring) : plain k = true -> k <> proto /\ k ∉ Object_prototype.
Proof.
  unfold plain. intros H. apply bool_decide_eq_true_1 in H.
  rewrite not_elem_of_cons in H. exact H.
Qed.

Section CategoryTotals.

Variable Number_toString : number -> jsstring.
Variable Function_toString : jsstring -> jsstring.

Lemma categoryTotals_snoc (expenses : list Expense) (e : Expense) :
  categoryTotals Number_toString Function_toString (expenses ++ [e])
  = assign (categoryTotals Number_toString Function_toString expenses) (category e)
      (plus_amount Number_toString Function_toString (categoryTotals Number_toString Function_toString expenses) (category e) (amount e)).
Proof. unfold categoryTotals. rewrite foldl_snoc. reflexivity. Qed.

(** On a name that is not inherited, the loop adds numbers. *)
Lemma plus_amount_plain (totals : gmap jsstring Total) (k : jsstring) (x : number)
    (old : option number) :
  plain k = true -> totals !! k = TNum <$> old ->
  plus_amount Number_toString Function_toString totals k x = TNum (or0 old + x).
Proof.
  intros P E. apply plain_spec in P as [P1 P2]. unfold plus_amount. rewrite E.
  destruct old as [t |]; cbn [fmap option_fmap option_map]; [reflexivity |].
  rewrite decide_False by exact P1. rewrite decide_False by exact P2. reflexivity.
Qed.

(** Under a name that is not inherited the object holds a number, if
    anything, whatever the other categories are. *)
Lemma categoryTotals_number (expenses : list Expense) (k : jsstring) :
  plain k = true -> exists old, categoryTotals Number_toString Function_toString expenses !! k = TNum <$> old.
Proof.
  intros P. induction expenses as [| e expenses [old IH]] using rev_ind.
  - exists None. reflexivity.
  - rewrite categoryTotals_snoc. unfold assign.
    destruct (decide (category e = proto)); [eauto |].
    destruct (decide (category e = k)) as [-> | Hne].
    + rewrite lookup_insert_eq, (plus_amount_plain _ _ _ old P IH).
      exists (Some (or0 old + amount e)%float). reflexivity.
    + rewrite lookup_insert_ne by exact Hne. eauto.
Qed.



(** The own properties are the categories, [__proto__] excepted. *)
Lemma categoryTotals_dom (expenses : list Expense) (c : jsstring) :
  is_Some (categoryTotals Number_toString Function_toString expenses !! c) <-> c <> proto /\ c ∈ category <$> expenses.
Proof.
  induction expenses as [| e expenses IH] using rev_ind.
  - cbn. rewrite lookup_empty.
    split; [intros [x Hx]; discriminate | intros [_ H]; inversion H].
  - rewrite categoryTotals_snoc, fmap_app, elem_of_app. cbn [fmap list_fmap].
    rewrite list_elem_of_singleton. unfold assign.
    destruct (decide (category e = proto)) as [Hp | Hp].
    + rewrite IH. split; [intros [? ?]; auto |].
      intros [Hc [H | H]]; [auto | congruence].
    + destruct (decide (category e = c)) as [<- | Hne].
      * rewrite lookup_insert_eq. split; eauto.
      * rewrite lookup_insert_ne by exact Hne. rewrite IH.
        split; [intros [? ?]; auto | intros [? [H | H]]; [auto | congruence]].
Qed.

(** A number the object holds is the result of adding a finite amount:
    neither NaN nor [-0]. *)
Lemma categoryTotals_acc (expenses : list Expense) (c : jsstring) (x : number) :
  Forall (fun e => isFinite (amount e) = true) expenses ->
  categoryTotals Number_toString Function_toString expenses !! c = Some (TNum x) -> Float64.acc x.
Proof.
  induction expenses as [| e expenses IH] using rev_ind; intros H.
  - cbn. rewrite lookup_empty. discriminate.
  - apply Forall_app in H as [Hes He]. rewrite Forall_singleton in He.
    rewrite categoryTotals_snoc. unfold assign.
    destruct (decide (category e = proto)); [exact (IH Hes) |].
    destruct (decide (category e = c)) as [<- | Hne];
      [| rewrite lookup_insert_ne by exact Hne; exact (IH Hes)].
    rewrite lookup_insert_eq. unfold plus_amount.
    destruct (categoryTotals Number_toString Function_toString expenses !! category e) as [[t | s] |].
    + intros [= <-]. apply Float64Facts.add_acc; [apply (Float64Facts.or0_is_acc (Some t)) | exact He].
    + destruct (nonempty s); [discriminate |].
      intros [= <-]. apply Float64Facts.add_acc; [apply Float64Facts.acc_zero | exact He].
    + repeat (destruct (decide _); [discriminate |]).
      intros [= <-]. apply Float64Facts.add_acc; [apply Float64Facts.acc_zero | exact He].
Qed.

End CategoryTotals.

Lemma totalExpenses_sum (expenses : list Expense) :
  totalExpenses expenses = sum (amount <$> expenses).
Proof. unfold totalExpenses, sum. rewrite foldl_fmap. reflexivity. Qed.




(** ** What each handler does, in one equation *)

Lemma handleQuery_eq (s : State) (effs : list Effect) :
  handleQuery (s, effs)
  = (Normal tt,
     if nonempty (trim (query s))
     then (setLoading true (setQuery [] (setMessages (fun prev => prev ++ [userMessage (query s)]) s)),
           effs ++ [PreventDefault; Fetch Query (queryRequest (query s))])
     else (s, effs ++ [PreventDefault])).
Proof.
  unfold handleQuery, sendQueryToBackend, bind, emit, get, modify, ret. cbn [fst snd].
  destruct (nonempty (trim (query s))); cbn [negb fst snd].
  - rewrite <- app_assoc. reflexivity.
  - reflexivity.
Qed.

Lemma sendQueryToBackend_resume_eq (r : FetchResult Value) (s : State) (effs : list Effect) :
  sendQueryToBackend_resume r (s, effs)
  = (Normal tt,
     (setLoading false
        (setMessages (fun prev => prev ++ [assistantMessage
                        (if caught r then VStr apology else reply_of r)]) s),
      effs ++ (if caught r then [] else [Fetch GetExpenses expensesRequest]))).
Proof.
  unfold sendQueryToBackend_resume, try_finally, try_catch, bind, await_fetch,
    await_json, data_response, fetchExpenses, emit, modify, throw, ret.
  destruct r as [| [o [data |]]]; cbn [json caught reply_of fst snd];
    rewrite ?app_nil_r; try reflexivity.
  destruct data; cbn [fst snd]; rewrite ?app_nil_r; reflexivity.
Qed.

Lemma fetchExpenses_resume_eq (r : FetchResult ExpensesData) (s : State) (effs : list Effect) :
  fetchExpenses_resume r (s, effs)
  = (Normal tt,
     match r with
     | Resolved {| json := Some (DataWith prop) |} => (setExpenses (default [] prop) s, effs)
     | _ => (s, effs ++ [ConsoleError (lit "Error fetching expenses:")])
     end).
Proof.
  unfold fetchExpenses_resume, try_catch, bind, await_fetch, await_json,
    data_expenses, emit, modify, throw, ret.
  destruct r as [| [o [[| prop] |]]]; reflexivity.
Qed.

Lemma addExpenseToBackend_resume_eq (r : FetchResult Value) (s : State) (effs : list Effect) :
  addExpenseToBackend_resume r (s, effs)
  = (Normal tt,
     match r with
     | Rejected =>
         (s, effs ++ [ConsoleError (lit "Error adding expense:");
                      Alert (lit "Failed to add expense. Please try again.")])
     | Resolved response =>
         if ok response
         then (setNewExpense emptyExpense s,
               effs ++ [Fetch GetExpenses expensesRequest;
                        Alert (lit "Expense added successfully!")])
         else (s, effs)
     end).
Proof.
  unfold addExpenseToBackend_resume, try_catch, bind, await_fetch, fetchExpenses,
    emit, modify, throw, ret.
  destruct r as [| [[] j]]; cbn [ok fst snd]; rewrite <- ?app_assoc; reflexivity.
Qed.

Lemma handleAddExpense_eq (now : jsstring) (s : State) (effs : list Effect) :
  handleAddExpense now (s, effs)
  = (Normal tt,
     (s, effs ++ [PreventDefault; Fetch AddExpense (addExpenseRequest (newExpense s) now)])).
Proof.
  unfold handleAddExpense, addExpenseToBackend, bind, emit, get. cbn [fst snd].
  rewrite <- app_assoc. reflexivity.
Qed.

(** ** The running application, event by event *)

Lemma dispatch_normal (h : M unit) (w : World) (st : Store) :
  h (app w, []) = (Normal tt, st) ->
  dispatch h w = {| app := st.1; inflight := inflight w ++ requests_of st.2;
                    performed := performed w ++ st.2; uncaught := uncaught w |}.
Proof. intros H. unfold dispatch. rewrite H, app_nil_r. destruct st. reflexivity. Qed.

Lemma dispatch_modify (f : State -> State) (w : World) :
  dispatch (modify f) w = {| app := f (app w); inflight := inflight w;
                             performed := performed w; uncaught := uncaught w |}.
Proof. unfold dispatch, modify. cbn. rewrite !app_nil_r. reflexivity. Qed.

Lemma queries_in_app (l k : list (Call * Request)) :
  queries_in (l ++ k) = queries_in l ++ queries_in k.
Proof. apply omap_app. Qed.

Lemma settle_Query (l l' : list (Call * Request)) :
  settle Query l = Some l' -> exists r, queries_in l = r :: queries_in l'.
Proof.
  revert l'. induction l as [| [c r] l IH]; intros l' H; [discriminate |].
  cbn [settle] in H. destruct c; cbn [Call_eqb] in H.
  - destruct (settle Query l) as [l0 |]; [| discriminate].
    injection H as <-. exact (IH _ eq_refl).
  - destruct (settle Query l) as [l0 |]; [| discriminate].
    injection H as <-. exact (IH _ eq_refl).
  - injection H as <-. exists r. reflexivity.
Qed.

Lemma settle_other (c : Call) (l l' : list (Call * Request)) :
  c <> Query -> settle c l = Some l' -> queries_in l' = queries_in l.
Proof.
  intros Hc. revert l'. induction l as [| [c' r] l IH]; intros l' H; [discriminate |].
  cbn [settle] in H. destruct (Call_eqb c c') eqn:E.
  - injection H as <-. destruct c, c'; try discriminate; try contradiction; reflexivity.
  - destruct (settle c l) as [l0 |]; [| discriminate].
    injection H as <-. unfold queries_in. cbn [omap list_omap fst snd].
    fold (queries_in l0). fold (queries_in l). rewrite (IH _ eq_refl). reflexivity.
Qed.

Lemma settle_enabled (l : list (Call * Request)) :
  queries_in l <> [] -> is_Some (settle Query l).
Proof.
  induction l as [| [c r] l IH]; intros H; [contradiction |].
  cbn [settle]. destruct c; cbn [Call_eqb]; eauto;
    destruct IH as [l' ->]; eauto.
Qed.

(** What each event does to the conversation. *)
Lemma step_chat (ev : Event) (w w' : World) :
  step ev w = Some w' ->
  match ev with
  | SubmitQuery =>
      loading (app w) = false /\
      chat w' =
        if nonempty (trim (query (app w)))
        then (messages (app w) ++ [userMessage (query (app w))], true,
              queries_in (inflight w) ++ [queryRequest (query (app w))], uncaught w)
        else chat w
  | QuerySettled r =>
      exists request,
        queries_in (inflight w) = request :: queries_in (inflight w') /\
        messages (app w')
        = messages (app w) ++ [assistantMessage (if caught r then VStr apology else reply_of r)] /\
        loading (app w') = false /\ uncaught w' = uncaught w
  | _ => chat w' = chat w
  end.
Proof.
  unfold step, guard, resume, chat. intros H.
  destruct ev;
    try (destruct (_ : bool) in H; [| discriminate]; injection H as <-;
         unfold handleSuggestionClick; rewrite dispatch_modify; reflexivity).
  - (* SubmitQuery *)
    destruct (on_tab "chat" (app w)); [| discriminate].
    destruct (loading (app w)) eqn:L; [discriminate |]. injection H as <-.
    split; [reflexivity |].
    rewrite (dispatch_normal _ _ _ (handleQuery_eq (app w) [])).
    destruct (nonempty (trim (query (app w)))); cbn; rewrite ?L, ?queries_in_app, ?app_nil_r;
      reflexivity.
  - (* ClickAddExpense *)
    destruct (on_tab "expenses" (app w)); [| discriminate]. injection H as <-.
    rewrite (dispatch_normal _ _ _ (handleAddExpense_eq now (app w) [])).
    cbn. rewrite queries_in_app, app_nil_r. reflexivity.
  - (* GetExpensesSettled *)
    destruct (settle GetExpenses (inflight w)) as [pending |] eqn:S; [| discriminate].
    injection H as <-. apply settle_other in S; [| discriminate].
    erewrite dispatch_normal by apply fetchExpenses_resume_eq.
    destruct r as [| [o [[| prop] |]]]; cbn; rewrite queries_in_app, app_nil_r, S; reflexivity.
  - (* AddExpenseSettled *)
    destruct (settle AddExpense (inflight w)) as [pending |] eqn:S; [| discriminate].
    injection H as <-. apply settle_other in S; [| discriminate].
    erewrite dispatch_normal by apply addExpenseToBackend_resume_eq.
    destruct r as [| [[] j]]; cbn; rewrite queries_in_app, app_nil_r, S; reflexivity.
  - (* QuerySettled *)
    destruct (settle Query (inflight w)) as [pending |] eqn:S; [| discriminate].
    injection H as <-. apply settle_Query in S as [request S].
    erewrite dispatch_normal by apply sendQueryToBackend_resume_eq.
    exists request. cbn. rewrite queries_in_app, S.
    destruct (caught r); cbn; rewrite app_nil_r; auto.
Qed.

Lemma step_appends (ev : Event) (w w' : World) :
  step ev w = Some w' ->
  exists suffix, messages (app w') = messages (app w) ++ suffix /\ (length suffix <= 1)%nat.
Proof.
  intros H. apply step_chat in H. unfold chat in H.
  destruct ev; try (injection H as -> _ _ _; exists []; rewrite app_nil_r; auto).
  - destruct H as [_ H]. destruct (nonempty _); injection H as -> _ _ _.
    + eexists; split; [reflexivity | cbn; lia].
    + exists []. rewrite app_nil_r. auto.
  - destruct H as (_ & _ & -> & _). eexists; split; [reflexivity | cbn; lia].
Qed.

Lemma dialogue_step (ev : Event) (w w' : World) :
  step ev w = Some w' -> dialogue (chat w) -> dialogue (chat w').
Proof.
  intros H. apply step_chat in H.
  destruct ev; try (rewrite H; exact id).
  - (* SubmitQuery *)
    destruct H as [L ->]. destruct (nonempty _); [| exact id].
    unfold chat, dialogue. rewrite L. intros (C & E & Q). rewrite Q.
    split; [apply conversation_ask, C | split; [exact E | eauto]].
  - (* QuerySettled *)
    destruct H as (request & Q & Hm & L & E). unfold chat, dialogue.
    rewrite Q, Hm, L, E. intros (C & E' & P).
    destruct (loading (app w)); [| discriminate].
    destruct P as (before & text & _ & [= _ ->]).
    split; [apply conversation_answer, C | auto].
Qed.

Lemma dialogue_run (evs : list Event) (w w' : World) :
  run evs w = Some w' -> dialogue (chat w) -> dialogue (chat w').
Proof.
  revert w. induction evs as [| ev evs IH]; intros w H.
  - injection H as <-. exact id.
  - cbn [run] in H. destruct (step ev w) as [w1 |] eqn:S; [| discriminate].
    intros D. apply (IH w1 H). exact (dialogue_step _ _ _ S D).
Qed.

Lemma dialogue_mounted : dialogue (chat mounted).
Proof. split; [constructor | split; reflexivity]. Qed.

Lemma conversation_alternates (turns : list Message) (awaiting : bool) :
  conversation turns awaiting ->
  forall rest, alternates true (turns ++ rest) = alternates (negb awaiting) rest.
Proof.
  induction 1 as [| turns text _ IH | turns reply _ IH]; intros rest.
  - reflexivity.
  - rewrite <- app_assoc, IH. reflexivity.
  - rewrite <- app_assoc, IH. reflexivity.
Qed.

(** ** The conversation log (C2, C4, C8) *)

(** A query in flight can always settle, whatever the outcome, and its
    settling appends one assistant turn, clears [loading] and lets no
    exception escape. *)
Lemma query_settles (w : World) (r : FetchResult Value) :
  queries_in (inflight w) <> [] ->
  exists w',
    step (QuerySettled r) w = Some w' /\
    messages (app w')
    = messages (app w) ++ [assistantMessage (if caught r then VStr apology else reply_of r)] /\
    loading (app w') = false /\
    uncaught w' = uncaught w.
Proof.
  intros H. destruct (settle_enabled _ H) as [pending S].
  assert (E : is_Some (step (QuerySettled r) w))
    by (unfold step, resume; rewrite S; cbn; eauto).
  destruct E as [w' E]. exists w'. split; [exact E |].
  apply step_chat in E as (_ & _ & Hm & L & U). auto.
Qed.

(** The chat panel can be rendered when React accepts the content of
    every message. *)
Lemma chatBubbles_Some (s : State) :
  is_Some (chatBubbles s) <-> Forall (fun m => renderable (content m) = true) (messages s).
Proof.
  unfold chatBubbles.
  assert (E : is_Some (mapM renderMessage (messages s))
              <-> Forall (fun m => renderable (content m) = true) (messages s)).
  { rewrite mapM_is_Some. apply Forall_iff. intros m. unfold renderMessage. cbn.
    destruct (renderable (content m)).
    - split; [reflexivity | eauto].
    - split; [intros [b Hb]; discriminate | discriminate]. }
  rewrite <- E. destruct (mapM renderMessage (messages s)); cbn.
  - split; eauto.
  - split; intros [b Hb]; discriminate.
Qed.

(** C2, as stated, fails. The backend answers a question with an error
    status and a JSON body that has no [response]: the call failed, and
    yet the turn appended is not the apology; its content is [undefined].
    And when the [response] of a reply is an object, the turn is appended
    and the chat panel, rendered until then, throws when rendered. *)
Lemma error_reply_not_apologised :
  let w := after [ChangeQuery question; SubmitQuery] in
  let error := Resolved {| ok := false;
                 json := Some (VObj [(lit "detail", VStr (lit "Not authenticated"))]) |} in
  let object := Resolved {| ok := true;
                  json := Some (VObj [(lit "response",
                                       VObj [(lit "text", VStr (lit "You spent 350."))])]) |} in
  query_fails error = true /\
  (exists w', step (QuerySettled error) w = Some w' /\
              last (messages (app w')) = Some (assistantMessage VUndefined) /\
              assistantMessage VUndefined <> assistantMessage (VStr apology)) /\
  (exists w', step (QuerySettled object) w = Some w' /\
              is_Some (chatBubbles (app w)) /\
              chatBubbles (app w') = None).
Proof.
  split; [reflexivity |]. split.
  - eexists. split; [vm_compute; reflexivity |].
    split; [vm_compute; reflexivity | discriminate].
  - eexists. split; [vm_compute; reflexivity |].
    split; [vm_compute; eauto | vm_compute; reflexivity].
Qed.

(** C2, amended. In every state the application reaches with a question
    awaiting its answer ([loading]), the query can settle with any
    outcome, and then the log ends with that question followed by one
    assistant turn, [loading] is cleared and no exception has escaped a
    handler. The turn is the apology when the handler's [try] block
    throws: the request was rejected, or the reply was not JSON or was
    [null]; these are failures of the call, but not all of them. Any
    other reply, whatever its status, gives a turn with the reply's
    [response] as it is, [undefined] when it has none; the chat panel, if
    it could be rendered before, can be rendered with the new turn
    exactly when React accepts that content. *)
Theorem query_gets_one_turn (evs : list Event) (w : World) (r : FetchResult Value) :
  run evs mounted = Some w ->
  loading (app w) = true ->
  exists w' before text,
    messages (app w) = before ++ [userMessage text] /\
    step (QuerySettled r) w = Some w' /\
    messages (app w')
    = before ++ [userMessage text;
                 assistantMessage (if caught r then VStr apology else reply_of r)] /\
    loading (app w') = false /\
    uncaught w' = [] /\
    (caught r = true -> query_fails r = true) /\
    (is_Some (chatBubbles (app w)) ->
     (is_Some (chatBubbles (app w')) <-> caught r = true \/ renderable (reply_of r) = true)).
Proof.
  intros H L. pose proof (dialogue_run _ _ _ H dialogue_mounted) as (_ & U & P).
  cbn in U. rewrite L in P. destruct P as (before & text & Hm & Q).
  destruct (query_settles w r) as (w' & S & Hm' & L' & U').
  { rewrite Q. discriminate. }
  exists w', before, text.
  split; [exact Hm |]. split; [exact S |].
  split; [rewrite Hm', Hm, <- app_assoc; reflexivity |].
  split; [exact L' |]. split; [rewrite U'; exact U |]. split.
  { destruct r as [| [o [[] |]]]; cbn; rewrite ?orb_true_r; auto; discriminate. }
  rewrite !chatBubbles_Some, Hm'. intros R.
  rewrite Forall_app, Forall_singleton. cbn [content assistantMessage].
  destruct (caught r); cbn [renderable]; split; auto.
  - intros [_ E]. auto.
  - intros [E | E]; [discriminate | auto].
Qed.

(** A question is asked and the network fails: the apology follows. *)
Lemma query_gets_one_turn_rejected :
  let evs := [ChangeQuery question; SubmitQuery] in
  run evs mounted = Some (after evs) /\
  loading (app (after evs)) = true /\
  exists w' before text,
    messages (app (after evs)) = before ++ [userMessage text] /\
    step (QuerySettled Rejected) (after evs) = Some w' /\
    messages (app w') = before ++ [userMessage text; assistantMessage (VStr apology)] /\
    loading (app w') = false /\
    uncaught w' = [] /\
    (caught Rejected = true -> query_fails Rejected = true) /\
    (is_Some (chatBubbles (app (after evs))) ->
     (is_Some (chatBubbles (app w'))
      <-> caught Rejected = true \/ renderable (reply_of Rejected) = true)).
Proof.
  split; [vm_compute; reflexivity |]. split; [vm_compute; reflexivity |].
  apply (query_gets_one_turn [ChangeQuery question; SubmitQuery]
           (after [ChangeQuery question; SubmitQuery]) Rejected);
    vm_compute; reflexivity.
Defined.

(** C4. The message log only grows at its end: whatever events happen,
    the messages recorded before are a prefix of the messages after, and
    each event appends at most one turn. *)
Theorem messages_append_only (evs : list Event) (w w' : World) :
  run evs w = Some w' ->
  exists suffix,
    messages (app w') = messages (app w) ++ suffix /\
    (length suffix <= length evs)%nat.
Proof.
  revert w. induction evs as [| ev evs IH]; intros w H.
  - injection H as <-. exists []. rewrite app_nil_r. auto.
  - cbn [run] in H. destruct (step ev w) as [w1 |] eqn:S; [| discriminate].
    destruct (step_appends _ _ _ S) as (s1 & E1 & L1).
    destruct (IH _ H) as (s2 & E2 & L2).
    exists (s1 ++ s2). rewrite E2, E1, <- app_assoc, length_app.
    split; [reflexivity | cbn [length]; lia].
Qed.

(** A question, a visit to the other tabs meanwhile, and the answer. *)
Lemma messages_append_only_exchange :
  let evs := [ChangeQuery question; SubmitQuery; ClickTab (lit "expenses");
              ClickTab (lit "chat");
              QuerySettled (Resolved {| ok := true;
                 json := Some (VObj [(lit "response", VStr (lit "You spent 350."))]) |})] in
  run evs mounted = Some (after evs) /\
  exists suffix,
    messages (app (after evs)) = messages (app mounted) ++ suffix /\
    (length suffix <= length evs)%nat.
Proof.
  split; [vm_compute; reflexivity |].
  apply messages_append_only. vm_compute. reflexivity.
Defined.

(** C8. In every state the application reaches: the log is a sequence of
    question/answer exchanges in submission order, roles alternating from
    the user; while a query is in flight ([loading]) no question can be
    submitted, the last turn is the question in flight and it is the only
    one; otherwise no query is in flight. *)
Theorem answers_follow_questions (evs : list Event) (w : World) :
  run evs mounted = Some w ->
  conversation (messages (app w)) (loading (app w)) /\
  alternates true (messages (app w)) = true /\
  if loading (app w)
  then step SubmitQuery w = None /\
       exists before text,
         messages (app w) = before ++ [userMessage text] /\
         queries_in (inflight w) = [queryRequest text]
  else queries_in (inflight w) = [].
Proof.
  intros H. pose proof (dialogue_run _ _ _ H dialogue_mounted) as (C & _ & P).
  split; [exact C | split].
  - rewrite <- (app_nil_r (messages (app w))).
    rewrite (conversation_alternates _ _ C). reflexivity.
  - destruct (loading (app w)) eqn:L; [| exact P].
    split; [| exact P].
    unfold step, guard. rewrite L, andb_false_r. reflexivity.
Qed.

(** One exchange completed and a second question in flight. *)
Lemma answers_follow_questions_second :
  let evs := [ChangeQuery question; SubmitQuery; QuerySettled Rejected;
              ChangeQuery (lit "and in April?"); SubmitQuery] in
  run evs mounted = Some (after evs) /\
  conversation (messages (app (after evs))) (loading (app (after evs))) /\
  alternates true (messages (app (after evs))) = true /\
  if loading (app (after evs))
  then step SubmitQuery (after evs) = None /\
       exists before text,
         messages (app (after evs)) = before ++ [userMessage text] /\
         queries_in (inflight (after evs)) = [queryRequest text]
  else queries_in (inflight (after evs)) = [].
Proof.
  split; [vm_compute; reflexivity |].
  apply (answers_follow_questions
           [ChangeQuery question; SubmitQuery; QuerySettled Rejected;
            ChangeQuery (lit "and in April?"); SubmitQuery]).
  vm_compute. reflexivity.
Defined.

(** ** Blank questions (C7) *)

(** C7, as stated, fails: an empty question, and one of white space only,
    is dropped; no turn is appended and nothing is sent. *)
Lemma blank_question_dropped :
  (exists w', step SubmitQuery mounted = Some w' /\
              query (app mounted) = [] /\
              messages (app w') = [] /\ inflight w' = inflight mounted /\
              loading (app w') = false) /\
  (exists w w', run [ChangeQuery (lit "   ")] mounted = Some w /\
                step SubmitQuery w = Some w' /\
                messages (app w') = [] /\ inflight w' = inflight mounted /\
                loading (app w') = false).
Proof.
  split.
  - eexists. split; [vm_compute; reflexivity |]. repeat split; reflexivity.
  - eexists _, _. split; [vm_compute; reflexivity |].
    split; [vm_compute; reflexivity |]. repeat split; reflexivity.
Qed.

(** C7, amended. On the chat tab, while nothing is loading, submitting is
    always possible; a blank question (empty, or white space only) leaves
    the state and the requests in flight as they were, and any other
    question is appended as a user turn and sent as it was typed, in one
    request, with the input cleared and [loading] set. *)
Theorem question_sent_unless_blank (w : World) :
  on_tab "chat" (app w) = true ->
  loading (app w) = false ->
  exists w',
    step SubmitQuery w = Some w' /\
    if nonempty (trim (query (app w)))
    then messages (app w') = messages (app w) ++ [userMessage (query (app w))] /\
         inflight w' = inflight w ++ [(Query, queryRequest (query (app w)))] /\
         loading (app w') = true /\
         query (app w') = []
    else app w' = app w /\ inflight w' = inflight w.
Proof.
  intros T L. unfold step, guard. rewrite T, L. cbn [negb andb].
  eexists. split; [reflexivity |].
  rewrite (dispatch_normal _ _ _ (handleQuery_eq (app w) [])).
  destruct (nonempty (trim (query (app w)))); cbn.
  - auto.
  - rewrite app_nil_r. auto.
Qed.

(** A question with surrounding white space is sent untrimmed. *)
Lemma question_sent_unless_blank_untrimmed :
  let w := after [ChangeQuery (lit "  food?  ")] in
  on_tab "chat" (app w) = true /\
  loading (app w) = false /\
  exists w',
    step SubmitQuery w = Some w' /\
    if nonempty (trim (query (app w)))
    then messages (app w') = messages (app w) ++ [userMessage (query (app w))] /\
         inflight w' = inflight w ++ [(Query, queryRequest (query (app w)))] /\
         loading (app w') = true /\
         query (app w') = []
    else app w' = app w /\ inflight w' = inflight w.
Proof.
  split; [vm_compute; reflexivity |]. split; [vm_compute; reflexivity |].
  apply (question_sent_unless_blank (after [ChangeQuery (lit "  food?  ")]));
    vm_compute; reflexivity.
Defined.

(** ** The expense form (C10) *)

(** C10. Sending the form leaves the state as it is, and when the request
    settles the form is reset to empty exactly when a response arrived
    and was [ok]; on a response that is not [ok] and on a rejected request
    the state, and so what was typed, is unchanged. *)
Theorem add_expense_form_atomic :
  (forall now s effs, (handleAddExpense now (s, effs)).2.1 = s) /\
  (forall r s effs,
      (addExpenseToBackend_resume r (s, effs)).2.1
      = if succeeded r then setNewExpense emptyExpense s else s) /\
  (forall s, newExpense (setNewExpense emptyExpense s) = emptyExpense).
Proof.
  split; [| split].
  - intros. rewrite handleAddExpense_eq. reflexivity.
  - intros. rewrite addExpenseToBackend_resume_eq.
    destruct r as [| [[] j]]; reflexivity.
  - reflexivity.
Qed.

(** ** The average (C9) *)

(** C9. With no expense the average shown is the text "0.00", whatever
    [toFixed] does, and with at least one expense it is the sum of all
    amounts divided by their number, formatted. *)
Theorem average_display_guarded (toFixed2 : number -> jsstring) :
  averageDisplay toFixed2 [] = lit "0.00" /\
  forall e es,
    averageDisplay toFixed2 (e :: es)
    = toFixed2 (sum (amount <$> e :: es) / number_of_nat (length (e :: es)))%float.
Proof.
  split; [reflexivity |]. intros e es.
  unfold averageDisplay. cbn [length Nat.ltb Nat.leb].
  rewrite totalExpenses_sum. reflexivity.
Qed.

(** ** Tenant scope of the requests (C1) *)

(** C1. The requests that add an expense and that ask a question carry
    the user id ["user_1"]; the request that lists the expenses, issued
    when the page mounts, carries none: it has no body, and its address
    no query. *)
Theorem expense_listing_unscoped :
  performed mounted = [Fetch GetExpenses expensesRequest] /\
  request_user_id expensesRequest = None /\
  body expensesRequest = None /\
  url expensesRequest = lit "http://localhost:8000/get-expenses" /\
  (forall form now,
      request_user_id (addExpenseRequest form now) = Some (VStr (lit "user_1"))) /\
  (forall text, request_user_id (queryRequest text) = Some (VStr (lit "user_1"))).
Proof. repeat split. Qed.

(** ** The order of the listing (C6) *)

(** C6, as stated, fails: a list fetched latest-first is shown earliest
    first. *)
Lemma listing_not_sorted :
  let fetched := [expense "Food" 200 "2024-05-20T12:00:00.000Z";
                  expense "Food" 150 "2024-05-02T12:00:00.000Z"] in
  shownExpenses fetched
  = [expense "Food" 150 "2024-05-02T12:00:00.000Z";
     expense "Food" 200 "2024-05-20T12:00:00.000Z"] /\
  descending (shownExpenses fetched) = false.
Proof. split; vm_compute; reflexivity. Qed.

Lemma descending_snoc (l : list Expense) (x : Expense) :
  descending (l ++ [x])
  = descending l && match last l with Some z => no_later x z | None => true end.
Proof.
  induction l as [| a [| b l] IH]; [reflexivity | cbn; apply andb_comm |].
  change (descending ((a :: b :: l) ++ [x]))
    with (no_later b a && descending ((b :: l) ++ [x])).
  rewrite IH. change (last (a :: b :: l)) with (last (b :: l)).
  cbn [descending]. rewrite andb_assoc. reflexivity.
Qed.

Lemma descending_reverse (l : list Expense) : descending (reverse l) = ascending l.
Proof.
  induction l as [| x l IH]; [reflexivity |].
  rewrite reverse_cons, descending_snoc, IH, last_reverse.
  destruct l as [| y l]; [reflexivity |]. cbn [head ascending]. apply andb_comm.
Qed.

(** C6, amended. The listing shows the fetched expenses in reverse order,
    the last one fetched first, one row per expense and unsorted: it is
    ordered by date, latest first, exactly when the fetched list is
    ordered by date, earliest first. *)
Theorem listing_reverses_fetch_order toFixed2 toLocaleDateString (expenses : list Expense) :
  recentExpenses toFixed2 toLocaleDateString expenses
  = imap (renderRow toFixed2 toLocaleDateString) (shownExpenses expenses) /\
  (forall e, shownExpenses (expenses ++ [e]) = e :: shownExpenses expenses) /\
  (forall i, shownExpenses expenses !! i
             = if decide (i < length expenses)%nat
               then expenses !! (length expenses - 1 - i)%nat else None) /\
  descending (shownExpenses expenses) = ascending expenses.
Proof.
  split; [reflexivity |]. split; [| split].
  - intros e. unfold shownExpenses. apply reverse_snoc.
  - intros i. unfold shownExpenses. destruct (decide (i < length expenses)%nat) as [Hi | Hi].
    + rewrite reverse_lookup by exact Hi. f_equal. lia.
    + apply lookup_ge_None. rewrite length_reverse. lia.
  - apply descending_reverse.
Qed.

(** ** Amounts are floating-point numbers (C5) *)

(** C5, as stated, fails: the amount typed as "0.1" is sent as the number
    0.1, no whole number; the total of 0.1 and 0.2 is not 0.3; and the
    total of the same three expenses depends on their order. *)
Lemma amounts_are_floats :
  (exists x, request_amount (addExpenseRequest (form_with "0.1") (lit "2024-05-02T12:00:00.000Z"))
             = Some (VNum x) /\
             x = 0x1.999999999999ap-4%float /\ is_integer x = false) /\
  (let total := totalExpenses [expense "Food" (parseFloat (lit "0.1")) "2024-05-02";
                               expense "Food" (parseFloat (lit "0.2")) "2024-05-02"] in
   total = parseFloat (lit "0.30000000000000004") /\
   (total =? parseFloat (lit "0.3"))%float = false) /\
  (let xs := [expense "Food" (parseFloat (lit "0.1")) "2024-05-02";
              expense "Food" (parseFloat (lit "0.2")) "2024-05-02";
              expense "Food" (parseFloat (lit "0.3")) "2024-05-02"] in
   (totalExpenses xs =? totalExpenses (reverse xs))%float = false).
Proof.
  split; [| split].
  - eexists. split; [vm_compute; reflexivity |]. split; vm_compute; reflexivity.
  - split; vm_compute; reflexivity.
  - vm_compute; reflexivity.
Qed.

(** C5, amended. The amount sent is the number [parseFloat] reads from
    the text typed, unscaled ([null] when that is not finite); the overall
    total adds the amounts as they are, one after the other in floating
    point, and so does the total of every category whose name is not one
    that an object inherits; and the average is the total divided by the
    number of expenses. *)
Theorem amounts_unscaled_numbers :
  (forall form now,
      request_amount (addExpenseRequest form now)
      = Some (if isFinite (parseFloat (new_amount form))
              then VNum (parseFloat (new_amount form)) else VNull)) /\
  (forall expenses e,
      totalExpenses (expenses ++ [e]) = (totalExpenses expenses + amount e)%float) /\
  (forall Number_toString Function_toString expenses e,
      plain (category e) = true ->
      exists old : option number,
        categoryTotals Number_toString Function_toString expenses !! category e
        = TNum <$> old /\
        categoryTotals Number_toString Function_toString (expenses ++ [e]) !! category e
        = Some (TNum (or0 old + amount e)) /\
        forall c, c <> category e ->
                  categoryTotals Number_toString Function_toString (expenses ++ [e]) !! c
                  = categoryTotals Number_toString Function_toString expenses !! c) /\
  (forall toFixed2 e es,
      averageDisplay toFixed2 (e :: es)
      = toFixed2 (totalExpenses (e :: es) / number_of_nat (length (e :: es)))%float).
Proof.
  split; [| split; [| split]].
  - reflexivity.
  - intros. unfold totalExpenses. rewrite foldl_snoc. reflexivity.
  - intros N F expenses e P.
    destruct (categoryTotals_number N F expenses (category e) P) as [old E].
    exists old. split; [exact E |]. rewrite categoryTotals_snoc.
    rewrite (plus_amount_plain N F _ _ _ old P E).
    apply plain_spec in P as [P _]. unfold assign. rewrite decide_False by exact P.
    split.
    + apply lookup_insert_eq.
    + intros c Hc. apply lookup_insert_ne. congruence.
  - reflexivity.
Qed.

(** The scenario, a fourth purchase added: Food goes from 350 to 362.5. *)
Lemma amounts_unscaled_numbers_scenario :
  let e := expense "Food" 12.5 "2024-05-21" in
  plain (category e) = true /\
  forall Number_toString Function_toString,
    categoryTotals Number_toString Function_toString (scenario ++ [e]) !! lit "Food"
    = Some (TNum 362.5) /\
    exists old : option number,
      categoryTotals Number_toString Function_toString scenario !! category e
      = TNum <$> old /\
      categoryTotals Number_toString Function_toString (scenario ++ [e]) !! category e
      = Some (TNum (or0 old + amount e)) /\
      forall c, c <> category e ->
                categoryTotals Number_toString Function_toString (scenario ++ [e]) !! c
                = categoryTotals Number_toString Function_toString scenario !! c.
Proof.
  split; [reflexivity |]. intros N F. split; [vm_compute; reflexivity |].
  apply (proj1 (proj2 (proj2 amounts_unscaled_numbers)) N F scenario
           (expense "Food" 12.5 "2024-05-21")).
  reflexivity.
Defined.

(** * Part IV: further properties of the component *)

(** ** Every event as a state update and a list of effects *)

(** Whatever handler an event runs, with its [try], [catch] and [finally],
    it completes normally; the state after it and the effects it performs
    are functions of the state before, and a settling removes the oldest
    request of its kind from the requests in flight. *)
Ltac finish_step :=
  rewrite ?app_nil_r;
  repeat (split; [reflexivity |]);
  eexists; split; [reflexivity || eassumption | rewrite ?app_nil_r; reflexivity].

Lemma step_reduce (ev : Event) (w w' : World) :
  step ev w = Some w' ->
  app w' = reduce ev (app w) /\
  performed w' = performed w ++ effects_of ev (app w) /\
  uncaught w' = uncaught w /\
  exists pending,
    match settled ev with
    | Some c => settle c (inflight w) = Some pending
    | None => pending = inflight w
    end /\
    inflight w' = pending ++ requests_of (effects_of ev (app w)).
Proof.
  unfold step, guard, resume. intros H.
  destruct ev; cbn [settled];
    try (destruct (_ : bool) in H; [| discriminate]; injection H as <-;
         unfold handleSuggestionClick; rewrite dispatch_modify; cbn;
         finish_step).
  - (* SubmitQuery *)
    destruct (on_tab "chat" (app w)); [| discriminate].
    destruct (loading (app w)); [discriminate |]. injection H as <-.
    rewrite (dispatch_normal _ _ _ (handleQuery_eq (app w) [])).
    cbn [reduce effects_of].
    destruct (nonempty (trim (query (app w)))); cbn; finish_step.
  - (* ClickAddExpense *)
    destruct (on_tab "expenses" (app w)); [| discriminate]. injection H as <-.
    rewrite (dispatch_normal _ _ _ (handleAddExpense_eq now (app w) [])).
    cbn. finish_step.
  - (* GetExpensesSettled *)
    destruct (settle GetExpenses (inflight w)) as [pending |] eqn:S; [| discriminate].
    injection H as <-.
    erewrite dispatch_normal by apply fetchExpenses_resume_eq.
    destruct r as [| [o [[| prop] |]]]; cbn; finish_step.
  - (* AddExpenseSettled *)
    destruct (settle AddExpense (inflight w)) as [pending |] eqn:S; [| discriminate].
    injection H as <-.
    erewrite dispatch_normal by apply addExpenseToBackend_resume_eq.
    destruct r as [| [[] j]]; cbn; finish_step.
  - (* QuerySettled *)
    destruct (settle Query (inflight w)) as [pending |] eqn:S; [| discriminate].
    injection H as <-.
    erewrite dispatch_normal by apply sendQueryToBackend_resume_eq.
    cbn [reduce effects_of fst snd]. destruct (caught r); finish_step.
Qed.

(** ** Blank questions and blank amounts *)

Lemma blank_snoc (s : jsstring) (c : N) : blank (s ++ [c]) = blank s && is_whitespace c.
Proof.
  unfold blank. rewrite forallb_app. cbn [forallb]. rewrite andb_true_r. reflexivity.
Qed.

Lemma blank_reverse (s : jsstring) : blank (reverse s) = blank s.
Proof.
  induction s as [| x s IH]; [reflexivity |].
  rewrite reverse_cons, blank_snoc, IH. apply andb_comm.
Qed.

Lemma trimStart_blank (s : jsstring) :
  nonempty (trimStart s) = negb (blank s) /\ blank (trimStart s) = blank s.
Proof.
  induction s as [| x s [IH1 IH2]]; [split; reflexivity |].
  cbn [trimStart blank forallb]. destruct (is_whitespace x) eqn:E.
  - split; assumption.
  - cbn [nonempty blank forallb]. rewrite E. split; reflexivity.
Qed.

Lemma nonempty_reverse (s : jsstring) : nonempty (reverse s) = nonempty s.
Proof.
  destruct s as [| x s]; [reflexivity |]. rewrite reverse_cons.
  destruct (reverse s); reflexivity.
Qed.

(** [!query.trim()] holds exactly of the texts made of white space only. *)
Lemma trim_blank (s : jsstring) : nonempty (trim s) = negb (blank s).
Proof.
  unfold trim, trimEnd. rewrite nonempty_reverse.
  rewrite (proj1 (trimStart_blank _)), blank_reverse.
  rewrite (proj2 (trimStart_blank _)). reflexivity.
Qed.

(** X1. A question is dropped exactly when every code unit of it is
    white space, wherever it stands: then [handleQuery] only prevents the
    default action; otherwise it appends the question as typed, clears
    the input, sets [loading] and sends the one request. *)
Theorem question_dropped_iff_blank (s : State) (effs : list Effect) :
  handleQuery (s, effs)
  = (Normal tt,
     if blank (query s)
     then (s, effs ++ [PreventDefault])
     else (setLoading true
             (setQuery [] (setMessages (fun prev => prev ++ [userMessage (query s)]) s)),
           effs ++ [PreventDefault; Fetch Query (queryRequest (query s))])).
Proof.
  rewrite handleQuery_eq, trim_blank. destruct (blank (query s)); reflexivity.
Qed.

Lemma parseFloat_blank (s : jsstring) : blank s = true -> is_nan (parseFloat s) = true.
Proof.
  intros H. pose proof (trimStart_blank s) as [E _]. rewrite H in E.
  unfold parseFloat. destruct (trimStart s); [reflexivity | discriminate].
Qed.

(** X2. The form is not validated: on the expenses tab the add button
    always sends one request, whatever the fields hold, and leaves the
    state as it is; an amount field that is empty or white space only is
    sent as [null]. *)
Theorem add_expense_unvalidated (w : World) (now : jsstring) :
  on_tab "expenses" (app w) = true ->
  exists w',
    step (ClickAddExpense now) w = Some w' /\
    app w' = app w /\
    inflight w' = inflight w ++ [(AddExpense, addExpenseRequest (newExpense (app w)) now)] /\
    (blank (new_amount (newExpense (app w))) = true ->
     request_amount (addExpenseRequest (newExpense (app w)) now) = Some VNull).
Proof.
  intros T. assert (E : is_Some (step (ClickAddExpense now) w))
    by (unfold step, guard; rewrite T; eauto).
  destruct E as [w' E]. exists w'. split; [exact E |].
  apply step_reduce in E as (Ha & _ & _ & pending & -> & Hi).
  split; [exact Ha |]. split; [exact Hi |].
  intros B. apply parseFloat_blank in B. unfold request_amount, addExpenseRequest.
  cbn [body own_prop]. repeat (destruct (decide _) as [Heq | _]; [discriminate Heq |]).
  destruct (decide _) as [_ | Hne]; [| contradiction].
  unfold stringify_number, isFinite, is_finite. rewrite B. reflexivity.
Qed.

(** The empty form, sent as it is. *)
Lemma add_expense_unvalidated_empty :
  let w := after [ClickTab (lit "expenses")] in
  on_tab "expenses" (app w) = true /\
  exists w',
    step (ClickAddExpense (lit "2024-05-02T12:00:00.000Z")) w = Some w' /\
    app w' = app w /\
    inflight w'
    = inflight w ++ [(AddExpense, addExpenseRequest (newExpense (app w))
                                    (lit "2024-05-02T12:00:00.000Z"))] /\
    (blank (new_amount (newExpense (app w))) = true ->
     request_amount (addExpenseRequest (newExpense (app w))
                       (lit "2024-05-02T12:00:00.000Z")) = Some VNull).
Proof.
  split; [vm_compute; reflexivity |].
  apply (add_expense_unvalidated (after [ClickTab (lit "expenses")])).
  vm_compute. reflexivity.
Defined.

(** ** What a run of events leaves *)

Lemma expenses_reduce (ev : Event) (s : State) :
  expenses (reduce ev s) = last_fetched [ev] (expenses s).
Proof.
  destruct ev; cbn [reduce last_fetched foldl]; try reflexivity.
  - destruct (nonempty _); reflexivity.
  - destruct r as [| [o [[| prop] |]]]; reflexivity.
  - destruct (succeeded r); reflexivity.
Qed.

(** X3. The expenses shown are those of the last reply to
    [GET /get-expenses] that arrived and decoded (an absent [expenses]
    property reading as the empty list), whichever request it answers; a
    rejected request, a body that is not JSON or is [null], and every
    other event leave the list as it was. *)
Theorem expenses_are_last_reply (evs : list Event) (w w' : World) :
  run evs w = Some w' ->
  expenses (app w') = last_fetched evs (expenses (app w)).
Proof.
  revert w. induction evs as [| ev evs IH]; intros w H.
  - injection H as <-. reflexivity.
  - cbn [run] in H. destruct (step ev w) as [w1 |] eqn:S; [| discriminate].
    rewrite (IH _ H). apply step_reduce in S as (-> & _).
    rewrite expenses_reduce. reflexivity.
Qed.

(** Two refreshes in flight: the reply that arrives last wins, and a
    failed one changes nothing. *)
Lemma expenses_are_last_reply_race :
  let now := lit "2024-05-02T12:00:00.000Z" in
  let reply l := GetExpensesSettled (Resolved {| ok := true; json := Some (DataWith (Some l)) |}) in
  let evs := [ClickTab (lit "expenses"); ClickAddExpense now;
              AddExpenseSettled (Resolved {| ok := true; json := None |});
              reply scenario; reply []; ClickAddExpense now;
              AddExpenseSettled (Resolved {| ok := true; json := None |});
              GetExpensesSettled Rejected] in
  run evs mounted = Some (after evs) /\
  expenses (app (after evs)) = last_fetched evs (expenses (app mounted)) /\
  expenses (app (after evs)) = [].
Proof.
  split; [vm_compute; reflexivity |]. split; [| vm_compute; reflexivity].
  apply expenses_are_last_reply. vm_compute. reflexivity.
Defined.

(** X4. No handler lets an exception escape: whatever happens, rejected
    requests and undecodable or [null] bodies included, every [throw] is
    caught by the handler's own [catch]. *)
Theorem nothing_uncaught (evs : list Event) (w : World) :
  run evs mounted = Some w -> uncaught w = [].
Proof.
  assert (G : forall w0, run evs w0 = Some w -> uncaught w = uncaught w0).
  { induction evs as [| ev evs IH]; intros w0 H.
    - injection H as <-. reflexivity.
    - cbn [run] in H. destruct (step ev w0) as [w1 |] eqn:S; [| discriminate].
      rewrite (IH _ H). apply step_reduce in S as (_ & _ & -> & _). reflexivity. }
  intros H. rewrite (G _ H). reflexivity.
Qed.

(** Every call fails once. *)
Lemma nothing_uncaught_failures :
  let evs := [GetExpensesSettled (Resolved {| ok := true; json := Some DataNull |});
              ChangeQuery question; SubmitQuery;
              QuerySettled (Resolved {| ok := false; json := None |});
              ClickTab (lit "expenses"); ClickAddExpense (lit "2024-05-02T12:00:00.000Z");
              AddExpenseSettled Rejected] in
  run evs mounted = Some (after evs) /\ uncaught (after evs) = [].
Proof.
  split; [vm_compute; reflexivity |].
  apply (nothing_uncaught
           [GetExpensesSettled (Resolved {| ok := true; json := Some DataNull |});
            ChangeQuery question; SubmitQuery;
            QuerySettled (Resolved {| ok := false; json := None |});
            ClickTab (lit "expenses"); ClickAddExpense (lit "2024-05-02T12:00:00.000Z");
            AddExpenseSettled Rejected]).
  vm_compute. reflexivity.
Defined.

(** ** The requests the client sends *)

Lemma effects_known (ev : Event) (s : State) : Forall known (effects_of ev s).
Proof.
  destruct ev; cbn [effects_of]; repeat constructor.
  - destruct (nonempty (trim (query s))) eqn:E; repeat constructor.
    exists (query s). rewrite trim_blank in E.
    split; [destruct (blank (query s)); [discriminate | reflexivity] | reflexivity].
  - eexists _, _. reflexivity.
  - destruct r as [| [o [[| prop] |]]]; repeat constructor.
  - destruct r as [| [[] j]]; repeat constructor.
  - destruct (caught r); repeat constructor.
Qed.

(** X5. Whatever happens, the client only ever sends its three requests,
    each as the kind it is resumed as: the listing, an expense built from
    the form, and a question that is not blank. So every request goes to
    one of three addresses under [API_URL], and every request but the
    listing carries the user id ["user_1"]. *)
Theorem only_known_requests (evs : list Event) (w : World) :
  run evs mounted = Some w ->
  Forall known (performed w) /\
  forall c r,
    Fetch c r ∈ performed w ->
    url r = API_URL ++ lit (match c with
                            | GetExpenses => "/get-expenses"
                            | AddExpense => "/add-expense"
                            | Query => "/query"
                            end) /\
    (c <> GetExpenses -> request_user_id r = Some (VStr (lit "user_1"))).
Proof.
  assert (G : forall w0, Forall known (performed w0) ->
                         run evs w0 = Some w -> Forall known (performed w)).
  { induction evs as [| ev evs IH]; intros w0 K H.
    - injection H as <-. exact K.
    - cbn [run] in H. destruct (step ev w0) as [w1 |] eqn:S; [| discriminate].
      apply (IH w1); [| exact H].
      apply step_reduce in S as (_ & -> & _).
      apply Forall_app. split; [exact K | apply effects_known]. }
  intros H. assert (K : Forall known (performed w)).
  { apply (G mounted); [repeat constructor | exact H]. }
  split; [exact K |]. intros c r Hin.
  rewrite Forall_forall in K. specialize (K _ Hin). cbn [known] in K.
  destruct c.
  - subst r. split; [reflexivity | congruence].
  - destruct K as (form & now & ->). split; reflexivity.
  - destruct K as (text & _ & ->). split; reflexivity.
Qed.

(** A question, its answer and the refresh that follows. *)
Lemma only_known_requests_exchange :
  let evs := [ChangeQuery question; SubmitQuery;
              QuerySettled (Resolved {| ok := true;
                 json := Some (VObj [(lit "response", VStr (lit "You spent 350."))]) |})] in
  run evs mounted = Some (after evs) /\
  Forall known (performed (after evs)).
Proof.
  split; [vm_compute; reflexivity |].
  apply (only_known_requests
           [ChangeQuery question; SubmitQuery;
            QuerySettled (Resolved {| ok := true;
               json := Some (VObj [(lit "response", VStr (lit "You spent 350."))]) |})]).
  vm_compute. reflexivity.
Defined.

(** ** What the rendered page offers *)

(** What holds of the state when an event can happen. *)
Lemma step_enabled (ev : Event) (w w' : World) :
  step ev w = Some w' ->
  match ev with
  | ChangeQuery _ | SubmitQuery => loading (app w) = false
  | ClickSuggestion suggestion => messages (app w) = [] /\ suggestion ∈ suggestions
  | ChangeCategory option => option ∈ category_options
  | ClickTab tab => tab ∈ tabs
  | _ => True
  end.
Proof.
  unfold step, guard. intros H. destruct ev; try exact I.
  - destruct (on_tab _ _); [| discriminate].
    destruct (loading (app w)); [discriminate | reflexivity].
  - destruct (on_tab _ _); [| discriminate]. cbn [andb] in H.
    destruct (bool_decide_reflect (length (messages (app w)) = 0%nat)) as [E |];
      [| discriminate].
    destruct (bool_decide_reflect (suggestion ∈ suggestions)) as [I |]; [| discriminate].
    split; [destruct (messages (app w)); [reflexivity | discriminate] | exact I].
  - destruct (on_tab _ _); [| discriminate].
    destruct (loading (app w)); [discriminate | reflexivity].
  - destruct (on_tab _ _); [| discriminate]. cbn [andb] in H.
    destruct (bool_decide_reflect (option ∈ category_options)) as [I |]; [exact I | discriminate].
  - destruct (bool_decide_reflect (tab ∈ tabs)) as [I |]; [exact I | discriminate].
Qed.

Lemma controls_step (ev : Event) (w w' : World) :
  step ev w = Some w' -> dialogue (chat w) -> controls w -> controls w'.
Proof.
  intros S D (T & C & Q). pose proof (step_enabled _ _ _ S) as G.
  unfold controls. apply step_reduce in S as (-> & _).
  destruct ev; cbn [reduce]; try (repeat split; assumption).
  - (* ChangeQuery *) cbn. rewrite G. repeat split; auto; discriminate.
  - (* ClickSuggestion *)
    destruct G as [Hm _]. unfold chat, dialogue in D. rewrite Hm in D.
    destruct D as (_ & _ & P). cbn. destruct (loading (app w)).
    + destruct P as (before & text & E & _). destruct before; discriminate.
    + repeat split; auto; discriminate.
  - (* SubmitQuery *)
    destruct (nonempty _); cbn; repeat split; auto.
  - destruct r as [| [o [[| prop] |]]]; cbn; repeat split; auto.
  - destruct (succeeded r); cbn; repeat split; auto.
    apply list_elem_of_here.
  - cbn. repeat split; auto; discriminate.
Qed.

Lemma controls_run (evs : list Event) (w : World) :
  run evs mounted = Some w -> controls w.
Proof.
  assert (G : forall w0, dialogue (chat w0) -> controls w0 ->
                         run evs w0 = Some w -> controls w).
  { induction evs as [| ev evs IH]; intros w0 D K H.
    - injection H as <-. exact K.
    - cbn [run] in H. destruct (step ev w0) as [w1 |] eqn:S; [| discriminate].
      apply (IH w1); [exact (dialogue_step _ _ _ S D) | | exact H].
      exact (controls_step _ _ _ S D K). }
  apply G; [apply dialogue_mounted |].
  split; [| split]; [| | discriminate]; apply list_elem_of_here.
Qed.

(** X6. Exactly one panel is shown: in every state the application
    reaches the active tab is one of the three the page tests for. *)
Theorem one_panel_shown (evs : list Event) (w : World) :
  run evs mounted = Some w ->
  length (filter (fun tab => on_tab tab (app w) = true) ["chat"; "expenses"; "analytics"]%string)
  = 1%nat.
Proof.
  intros H. destruct (controls_run _ _ H) as (T & _). unfold on_tab.
  unfold tabs in T. cbn [fmap list_fmap] in T.
  repeat (apply elem_of_cons in T as [-> | T]; [vm_compute; reflexivity |]).
  inversion T.
Qed.

Lemma one_panel_shown_analytics :
  let evs := [ClickTab (lit "expenses"); ClickTab (lit "analytics")] in
  run evs mounted = Some (after evs) /\
  length (filter (fun tab => on_tab tab (app (after evs)) = true)
                 ["chat"; "expenses"; "analytics"]%string) = 1%nat.
Proof.
  split; [vm_compute; reflexivity |].
  apply (one_panel_shown [ClickTab (lit "expenses"); ClickTab (lit "analytics")]).
  vm_compute. reflexivity.
Defined.

(** X7. Whatever was typed and chosen before, the category the form
    holds, and so the one a request to add an expense carries, is one of
    the options of the select: the empty one when none was chosen. *)
Theorem category_is_an_option (evs : list Event) (w : World) (now : jsstring) :
  run evs mounted = Some w ->
  exists c,
    c ∈ category_options /\
    body (addExpenseRequest (newExpense (app w)) now)
    ≫= (fun b => match b with VObj props => own_prop (lit "category") props | _ => None end)
    = Some (VStr c).
Proof.
  intros H. destruct (controls_run _ _ H) as (_ & C & _).
  exists (new_category (newExpense (app w))). split; [exact C | reflexivity].
Qed.

Lemma category_is_an_option_unchosen :
  let evs := [ClickTab (lit "expenses"); ChangeAmount (lit "500")] in
  run evs mounted = Some (after evs) /\
  exists c,
    c ∈ category_options /\
    body (addExpenseRequest (newExpense (app (after evs))) (lit "2024-05-02T12:00:00.000Z"))
    ≫= (fun b => match b with VObj props => own_prop (lit "category") props | _ => None end)
    = Some (VStr c).
Proof.
  split; [vm_compute; reflexivity |].
  apply (category_is_an_option [ClickTab (lit "expenses"); ChangeAmount (lit "500")]).
  vm_compute. reflexivity.
Defined.

(** X8. While a question awaits its answer the chat input is empty and
    cannot be changed: it is cleared on submission, typing is disabled
    and the suggestions are gone with the first message. *)
Theorem input_empty_while_loading (evs : list Event) (w : World) :
  run evs mounted = Some w ->
  loading (app w) = true ->
  query (app w) = [] /\
  (forall text, step (ChangeQuery text) w = None) /\
  (forall suggestion, step (ClickSuggestion suggestion) w = None).
Proof.
  intros H L. destruct (controls_run _ _ H) as (_ & _ & Q).
  pose proof (dialogue_run _ _ _ H dialogue_mounted) as (_ & _ & P).
  rewrite L in P. destruct P as (before & text & Hm & _).
  split; [exact (Q L) | split].
  - intros t. unfold step, guard. rewrite L, andb_false_r. reflexivity.
  - intros t. unfold step, guard. rewrite Hm, length_app.
    cbn [length]. rewrite Nat.add_1_r. cbn [bool_decide]. 
    rewrite bool_decide_eq_false_2 by discriminate.
    rewrite andb_false_r. reflexivity.
Qed.

Lemma input_empty_while_loading_asked :
  let evs := [ChangeQuery question; SubmitQuery] in
  run evs mounted = Some (after evs) /\
  loading (app (after evs)) = true /\
  query (app (after evs)) = [] /\
  (forall text, step (ChangeQuery text) (after evs) = None) /\
  (forall suggestion, step (ClickSuggestion suggestion) (after evs) = None).
Proof.
  split; [vm_compute; reflexivity |]. split; [vm_compute; reflexivity |].
  apply (input_empty_while_loading [ChangeQuery question; SubmitQuery]);
    vm_compute; reflexivity.
Defined.

(** ** When the list is refreshed and when the user is alerted *)

(** X9. Besides the mount, the expenses are fetched again exactly after a
    successful add (a response that is [ok]) and after an answered
    question (a reply that decoded to something other than [null]), once
    each time; never after a failure and never on any other event. *)
Theorem refresh_policy (ev : Event) (w w' : World) :
  step ev w = Some w' ->
  exists effs,
    performed w' = performed w ++ effs /\
    List.filter is_refresh effs
    = if refreshes ev then [Fetch GetExpenses expensesRequest] else [].
Proof.
  intros S. apply step_reduce in S as (_ & -> & _).
  eexists. split; [reflexivity |].
  destruct ev; cbn [effects_of refreshes]; try reflexivity.
  - destruct (nonempty _); reflexivity.
  - destruct r as [| [o [[| prop] |]]]; reflexivity.
  - destruct r as [| [[] j]]; reflexivity.
  - destruct (caught r); reflexivity.
Qed.

Lemma refresh_policy_answered :
  let w := after [ChangeQuery question; SubmitQuery] in
  let ev := QuerySettled (Resolved {| ok := true;
              json := Some (VObj [(lit "response", VStr (lit "You spent 350."))]) |}) in
  step ev w = Some (default w (step ev w)) /\
  exists effs,
    performed (default w (step ev w)) = performed w ++ effs /\
    List.filter is_refresh effs = [Fetch GetExpenses expensesRequest].
Proof.
  split; [vm_compute; reflexivity |].
  apply (refresh_policy
           (QuerySettled (Resolved {| ok := true;
              json := Some (VObj [(lit "response", VStr (lit "You spent 350."))]) |}))
           (after [ChangeQuery question; SubmitQuery])).
  vm_compute. reflexivity.
Defined.

(** X10. The user is alerted only when an add settles: of the success
    when the response is [ok], of the failure when the request was
    rejected, and not at all when a response arrived that is not [ok]
    (that outcome changes nothing and shows nothing). *)
Theorem alert_policy (ev : Event) (w w' : World) :
  step ev w = Some w' ->
  exists effs,
    performed w' = performed w ++ effs /\
    List.filter is_alert effs
    = match ev with
      | AddExpenseSettled Rejected => [Alert (lit "Failed to add expense. Please try again.")]
      | AddExpenseSettled (Resolved response) =>
          if ok response then [Alert (lit "Expense added successfully!")] else []
      | _ => []
      end /\
    match ev with
    | AddExpenseSettled (Resolved {| ok := false |}) => app w' = app w /\ effs = []
    | _ => True
    end.
Proof.
  intros S. apply step_reduce in S as (-> & -> & _).
  eexists. split; [reflexivity |].
  destruct ev; cbn [effects_of reduce]; try (split; [reflexivity | exact I]).
  - destruct (nonempty _); split; [reflexivity | exact I | reflexivity | exact I].
  - destruct r as [| [o [[| prop] |]]]; split; reflexivity || exact I.
  - destruct r as [| [[] j]]; repeat split.
  - destruct (caught r); split; reflexivity || exact I.
Qed.

Lemma alert_policy_not_ok :
  let w := after [ClickTab (lit "expenses"); ChangeAmount (lit "500");
                  ClickAddExpense (lit "2024-05-02T12:00:00.000Z")] in
  let ev := AddExpenseSettled (Resolved {| ok := false; json := None |}) in
  step ev w = Some (default w (step ev w)) /\
  exists effs,
    performed (default w (step ev w)) = performed w ++ effs /\
    List.filter is_alert effs = [] /\
    app (default w (step ev w)) = app w /\ effs = [].
Proof.
  split; [vm_compute; reflexivity |].
  apply (alert_policy (AddExpenseSettled (Resolved {| ok := false; json := None |}))
           (after [ClickTab (lit "expenses"); ChangeAmount (lit "500");
                   ClickAddExpense (lit "2024-05-02T12:00:00.000Z")])).
  vm_compute. reflexivity.
Defined.

(** ** Suggestions and the form *)

Lemma suggestions_not_blank (suggestion : jsstring) :
  suggestion ∈ suggestions -> blank suggestion = false.
Proof.
  unfold suggestions. cbn [fmap list_fmap]. intros H.
  repeat (apply elem_of_cons in H as [-> | H]; [vm_compute; reflexivity |]).
  inversion H.
Qed.

(** X11. A suggestion only fills the input; submitting then asks it: on
    the chat tab, before the first message, clicking a suggestion sends
    nothing and appends nothing, and the submission that follows appends
    the suggestion as the first user turn and sends it as the one query
    in flight. *)
Theorem suggestion_then_submit (w : World) (suggestion : jsstring) :
  on_tab "chat" (app w) = true ->
  messages (app w) = [] ->
  loading (app w) = false ->
  suggestion ∈ suggestions ->
  exists w1 w2,
    step (ClickSuggestion suggestion) w = Some w1 /\
    messages (app w1) = [] /\ inflight w1 = inflight w /\ query (app w1) = suggestion /\
    step SubmitQuery w1 = Some w2 /\
    messages (app w2) = [userMessage suggestion] /\
    inflight w2 = inflight w ++ [(Query, queryRequest suggestion)] /\
    loading (app w2) = true /\ query (app w2) = [].
Proof.
  intros T Hm L I.
  assert (E1 : is_Some (step (ClickSuggestion suggestion) w)).
  { unfold step, guard. rewrite T, Hm. cbn [length andb].
    rewrite !bool_decide_eq_true_2 by auto. eauto. }
  destruct E1 as [w1 E1]. pose proof (step_reduce _ _ _ E1) as (A1 & _ & _ & p1 & -> & I1).
  cbn [reduce effects_of requests_of omap list_omap] in A1, I1. rewrite app_nil_r in I1.
  assert (E2 : is_Some (step SubmitQuery w1)).
  { unfold step, guard. rewrite A1. unfold on_tab in *. cbn [activeTab loading setQuery].
    rewrite T, L. eauto. }
  destruct E2 as [w2 E2]. pose proof (step_reduce _ _ _ E2) as (A2 & _ & _ & p2 & -> & I2).
  rewrite A1 in A2, I2. cbn [reduce effects_of query setQuery] in A2, I2.
  rewrite trim_blank, (suggestions_not_blank _ I) in A2, I2.
  cbn [negb] in A2, I2.
  exists w1, w2.
  split; [exact E1 |]. split; [rewrite A1; exact Hm |]. split; [exact I1 |].
  split; [rewrite A1; reflexivity |]. split; [exact E2 |].
  rewrite A2, I2, I1. cbn [messages setLoading setQuery setMessages loading query].
  rewrite Hm. repeat split.
Qed.

Lemma suggestion_then_submit_first :
  on_tab "chat" (app mounted) = true /\
  messages (app mounted) = [] /\
  loading (app mounted) = false /\
  lit "Summarize my monthly spending" ∈ suggestions /\
  exists w1 w2,
    step (ClickSuggestion (lit "Summarize my monthly spending")) mounted = Some w1 /\
    messages (app w1) = [] /\ inflight w1 = inflight mounted /\
    query (app w1) = lit "Summarize my monthly spending" /\
    step SubmitQuery w1 = Some w2 /\
    messages (app w2) = [userMessage (lit "Summarize my monthly spending")] /\
    inflight w2 = inflight mounted
                  ++ [(Query, queryRequest (lit "Summarize my monthly spending"))] /\
    loading (app w2) = true /\ query (app w2) = [].
Proof.
  assert (I : lit "Summarize my monthly spending" ∈ suggestions)
    by (do 2 apply list_elem_of_further; apply list_elem_of_here).
  repeat (split; [reflexivity || exact I |]).
  apply (suggestion_then_submit mounted (lit "Summarize my monthly spending"));
    reflexivity || exact I.
Defined.

(** ** The charts *)

(** An expense is filed under the name of a day exactly when its date
    falls on that day; a date that does not parse is filed under none. *)
Lemma dayOf_day (getDay : jsstring -> option nat) (e : Expense) (i : nat) (d : jsstring) :
  days !! i = Some d -> (dayOf getDay e = d <-> getDay (date e) = Some i).
Proof.
  unfold dayOf. intros Hd.
  destruct (getDay (date e)) as [n |]; cbn [mbind option_bind default].
  - do 7 (destruct i as [| i]; [injection Hd as <-;
            do 7 (destruct n as [| n]; [split; intros H; (reflexivity || discriminate H) |]);
            split; intros H; discriminate H |]).
    discriminate Hd.
  - do 7 (destruct i as [| i]; [injection Hd as <-; split; intros H; discriminate H |]).
    discriminate Hd.
Qed.

(** X12. For expenses with finite amounts, the weekly chart has one bar
    per day of the week, Sunday to Saturday, and the bar of a day is the
    sum of the amounts of exactly the expenses whose date falls on it: 0
    when there is none. An expense whose date does not parse counts for
    no day. *)
Theorem weekly_amounts_per_day (getDay : jsstring -> option nat) (expenses : list Expense) :
  Forall (fun e => isFinite (amount e) = true) expenses ->
  getWeeklyData getDay expenses
  = imap (fun i d => {| day := d; day_amount := sum (amounts_on getDay i expenses) |}) days.
Proof.
  intros H. unfold getWeeklyData.
  assert (G : forall i d, days !! i = Some d ->
              or0 (weeklyData getDay expenses !! d) = sum (amounts_on getDay i expenses)).
  { intros i d Hd. change (weeklyData getDay expenses) with (tally (dayOf getDay) expenses).
    rewrite (proj2 (or0_tally _ _ d H)). unfold amounts_on. do 2 f_equal.
    apply list_filter_iff. intros e. apply dayOf_day, Hd. }
  unfold days in *. cbn [fmap list_fmap imap] in *.
  rewrite (G 0%nat _ eq_refl), (G 1%nat _ eq_refl), (G 2%nat _ eq_refl),
    (G 3%nat _ eq_refl), (G 4%nat _ eq_refl), (G 5%nat _ eq_refl), (G 6%nat _ eq_refl).
  reflexivity.
Qed.

(** The scenario, its first purchase on a Thursday, its last with a date
    that does not parse. *)
Lemma weekly_amounts_per_day_scenario :
  let getDay d := if decide (d = lit "2024-05-02") then Some 4%nat
                  else if decide (d = lit "2024-05-20") then Some 1%nat else None in
  Forall (fun e => isFinite (amount e) = true) scenario /\
  getWeeklyData getDay scenario
  = imap (fun i d => {| day := d; day_amount := sum (amounts_on getDay i scenario) |}) days /\
  day_amount <$> getWeeklyData getDay scenario = [0; 150; 0; 0; 200; 0; 0]%float.
Proof.
  assert (H : Forall (fun e => isFinite (amount e) = true) scenario)
    by (repeat constructor).
  split; [exact H |]. split; [| vm_compute; reflexivity].
  exact (weekly_amounts_per_day _ scenario H).
Defined.

(** X13. Whatever the amounts are, and whatever the names, the pie chart
    has exactly one slice per distinct category of the expenses other
    than [__proto__], which gets none: the names of the entries are these
    categories, each once. *)
Theorem one_entry_per_category (Number_toString : number -> jsstring)
    (Function_toString : jsstring -> jsstring) (expenses : list Expense) :
  let entries := getCategoryData Number_toString Function_toString expenses in
  let categories := remove_dups (filter (fun c => c <> proto) (category <$> expenses)) in
  NoDup (name <$> entries) /\
  name <$> entries ≡ₚ categories /\
  length entries = length categories.
Proof.
  intros entries categories.
  assert (E : name <$> entries
              = (map_to_list (categoryTotals Number_toString Function_toString expenses)).*1).
  { unfold entries, getCategoryData. rewrite <- list_fmap_compose. reflexivity. }
  assert (N : NoDup (name <$> entries)).
  { rewrite E. apply NoDup_fst_map_to_list. }
  assert (P : name <$> entries ≡ₚ categories).
  { apply NoDup_Permutation; [exact N | apply NoDup_remove_dups |].
    intros c. unfold categories.
    rewrite elem_of_remove_dups, list_elem_of_filter.
    rewrite <- (categoryTotals_dom Number_toString Function_toString), E.
    rewrite list_elem_of_fmap. split.
    - intros ([k v] & -> & Hin). apply elem_of_map_to_list in Hin. eauto.
    - intros [v Hv]. exists (c, v). split; [reflexivity | apply elem_of_map_to_list, Hv]. }
  split; [exact N | split; [exact P |]].
  rewrite <- (length_fmap name), P. reflexivity.
Qed.

Lemma not_nan_acc (t : float) : Float64.acc t -> is_nan t = false.
Proof.
  intros [Hn _]. destruct (is_nan t) eqn:E; [| reflexivity].
  exfalso. apply Hn. unfold Prim2SF. rewrite E. reflexivity.
Qed.

(** X14. With finite amounts no total is ever NaN: not the overall total,
    not the total of any category, whatever its name, not the bar of any
    day. (A total can overflow to an infinity, which then stays.) *)
Theorem totals_never_NaN (expenses : list Expense) :
  Forall (fun e => isFinite (amount e) = true) expenses ->
  is_nan (totalExpenses expenses) = false /\
  (forall Number_toString Function_toString entry x,
      entry ∈ getCategoryData Number_toString Function_toString expenses ->
      value entry = TNum x -> is_nan x = false) /\
  (forall getDay entry,
      entry ∈ getWeeklyData getDay expenses -> is_nan (day_amount entry) = false).
Proof.
  intros H. split; [| split].
  - rewrite totalExpenses_sum. apply not_nan_acc, sum_acc.
    apply Forall_fmap. exact H.
  - intros N F [n v] x. unfold getCategoryData. rewrite list_elem_of_fmap.
    intros ([k t] & [= -> ->] & Hin) E. apply elem_of_map_to_list in Hin.
    cbn [value snd fst] in *. subst t.
    apply not_nan_acc. exact (categoryTotals_acc N F expenses k x H Hin).
  - intros getDay entry. unfold getWeeklyData. rewrite list_elem_of_fmap.
    intros (d & -> & _). cbn [day_amount].
    change (weeklyData getDay expenses) with (tally (dayOf getDay) expenses).
    rewrite (proj2 (or0_tally _ _ d H)).
    apply not_nan_acc, sum_acc, amounts_finite, H.
Qed.

(** Two amounts near the largest number: the total overflows, and is not
    NaN. *)
Lemma totals_never_NaN_overflow :
  let big := parseFloat (lit "1e308") in
  let xs := [expense "Food" big "2024-05-02"; expense "Food" big "2024-05-03";
             expense "Food" (- big) "2024-05-04"] in
  Forall (fun e => isFinite (amount e) = true) xs /\
  totalExpenses xs = infinity /\
  is_nan (totalExpenses xs) = false.
Proof.
  assert (H : Forall (fun e => isFinite (amount e) = true)
                [expense "Food" (parseFloat (lit "1e308")) "2024-05-02";
                 expense "Food" (parseFloat (lit "1e308")) "2024-05-03";
                 expense "Food" (- parseFloat (lit "1e308")) "2024-05-04"])
    by (repeat constructor).
  split; [exact H |]. split; [vm_compute; reflexivity |].
  exact (proj1 (totals_never_NaN _ H)).
Defined.

(** ** The chat panel *)

Lemma exchange_labels_snoc (n : nat) :
  exchange_labels (S n) = exchange_labels n ++ [lit "You"; lit "AI"].
Proof.
  unfold exchange_labels. rewrite replicate_S_end, join_app. cbn [mjoin list_join].
  rewrite app_nil_r. reflexivity.
Qed.

(** The label the chat panel gives a message. *)
Lemma renderMessage_label (m : Message) (b : Bubble) :
  renderMessage m = Some b ->
  bubble_label b = if decide (role m = lit "user") then lit "You" else lit "AI".
Proof.
  unfold renderMessage. destruct (renderable (content m)); [| discriminate].
  intros [= <-]. reflexivity.
Qed.

Lemma conversation_labels (turns : list Message) (awaiting : bool) :
  conversation turns awaiting ->
  exists n,
    (fun m => if decide (role m = lit "user") then lit "You" else lit "AI") <$> turns
    = exchange_labels n ++ (if awaiting then [lit "You"] else []).
Proof.
  induction 1 as [| turns text _ [n IH] | turns reply _ [n IH]].
  - exists 0%nat. reflexivity.
  - exists n. rewrite !fmap_app, IH, app_nil_r. reflexivity.
  - exists (S n). rewrite !fmap_app, IH, exchange_labels_snoc, app_nil_r, <- app_assoc.
    reflexivity.
Qed.

Lemma mapM_renderMessage_labels (turns : list Message) (bubbles : list Bubble) :
  mapM renderMessage turns = Some bubbles ->
  bubble_label <$> bubbles
  = (fun m => if decide (role m = lit "user") then lit "You" else lit "AI") <$> turns.
Proof.
  intros H. apply mapM_Some in H.
  induction H as [| m b turns bubbles Hb _ IH]; [reflexivity |].
  cbn [fmap list_fmap]. rewrite (renderMessage_label _ _ Hb). f_equal. exact IH.
Qed.

(** X15. In every state the application reaches, rendering the chat
    panel throws exactly when the content of some message is one React
    refuses (an object, in a reply); otherwise the panel shows whole
    exchanges: the bubbles (the messages, and the "Thinking..." bubble
    while [loading]) are labelled You, AI, You, AI, ..., ending with an AI
    bubble, the pending answer's place taken by the "Thinking..."
    bubble. *)
Theorem chat_shows_whole_exchanges (evs : list Event) (w : World) :
  run evs mounted = Some w ->
  (chatBubbles (app w) = None
   <-> exists m, m ∈ messages (app w) /\ renderable (content m) = false) /\
  forall bubbles,
    chatBubbles (app w) = Some bubbles ->
    exists n,
      bubble_label <$> bubbles = exchange_labels n /\
      length bubbles = (2 * n)%nat /\
      (loading (app w) = true -> last bubbles = Some thinking).
Proof.
  intros H. split.
  - rewrite eq_None_not_Some, chatBubbles_Some. split.
    + intros N. apply not_Forall_Exists in N; [| intros m; apply _].
      apply Exists_exists in N as (m & Hin & Hm). exists m. split; [exact Hin |].
      cbn in Hm. destruct (renderable (content m)); [contradiction | reflexivity].
    + intros (m & Hin & Hm) F. rewrite Forall_forall in F.
      specialize (F _ Hin). congruence.
  - intros bubbles B.
    pose proof (dialogue_run _ _ _ H dialogue_mounted) as (C & _ & _).
    apply conversation_labels in C as [n E]. unfold chatBubbles in B.
    destruct (mapM renderMessage (messages (app w))) as [shown |] eqn:M; [| discriminate].
    cbn in B. injection B as <-. apply mapM_renderMessage_labels in M.
    rewrite <- M in E.
    assert (L : forall k, length (exchange_labels k) = (2 * k)%nat).
    { induction k as [| k IH]; [reflexivity |].
      rewrite exchange_labels_snoc, length_app, IH. cbn [length]. lia. }
    assert (G : exists k,
               bubble_label <$> (shown ++ (if loading (app w) then [thinking] else []))
               = exchange_labels k).
    { destruct (loading (app w)).
      - exists (S n). rewrite fmap_app, E, exchange_labels_snoc, <- app_assoc. reflexivity.
      - exists n. rewrite !app_nil_r in *. exact E. }
    destruct G as [k G]. exists k. split; [exact G |]. split.
    + rewrite <- (length_fmap bubble_label), G. apply L.
    + intros ->. apply last_snoc.
Qed.

(** One exchange completed and a second question in flight: four
    bubbles, the last one "Thinking...". *)
Lemma chat_shows_whole_exchanges_thinking :
  let evs := [ChangeQuery question; SubmitQuery; QuerySettled Rejected;
              ChangeQuery (lit "and in April?"); SubmitQuery] in
  run evs mounted = Some (after evs) /\
  (exists bubbles,
      chatBubbles (app (after evs)) = Some bubbles /\
      bubble_label <$> bubbles = exchange_labels 2 /\
      last bubbles = Some thinking) /\
  forall bubbles,
    chatBubbles (app (after evs)) = Some bubbles ->
    exists n,
      bubble_label <$> bubbles = exchange_labels n /\
      length bubbles = (2 * n)%nat /\
      (loading (app (after evs)) = true -> last bubbles = Some thinking).
Proof.
  split; [vm_compute; reflexivity |].
  split; [eexists; split; [vm_compute; reflexivity | split; vm_compute; reflexivity] |].
  apply (chat_shows_whole_exchanges
           [ChangeQuery question; SubmitQuery; QuerySettled Rejected;
            ChangeQuery (lit "and in April?"); SubmitQuery]).
  vm_compute. reflexivity.
Defined.

(** ** The palette *)

Lemma COLORS_defined (i : nat) : is_Some (COLORS !! (i mod length COLORS)%nat).
Proof.
  apply lookup_lt_is_Some. apply Nat.mod_upper_bound. discriminate.
Qed.

(** X16. The palette is cycled and never read out of range: the table
    has one row per expense, keyed 0, 1, 2, ... in the order shown, every
    row has a badge colour, the one of its index modulo 8, and every
    slice of the pie chart has a fill. *)
Theorem palette_in_range toFixed2 toLocaleDateString Number_toString Function_toString
    (expenses : list Expense) :
  length (recentExpenses toFixed2 toLocaleDateString expenses) = length expenses /\
  row_key <$> recentExpenses toFixed2 toLocaleDateString expenses
  = seq 0 (length expenses) /\
  (forall i row,
      recentExpenses toFixed2 toLocaleDateString expenses !! i = Some row ->
      row_key row = i /\
      is_Some (row_badge row) /\
      row_badge row = COLORS !! (i mod 8)%nat) /\
  Forall is_Some (pieFills Number_toString Function_toString expenses) /\
  length (pieFills Number_toString Function_toString expenses)
  = length (getCategoryData Number_toString Function_toString expenses).
Proof.
  unfold recentExpenses, pieFills, shownExpenses.
  split; [rewrite length_imap, length_reverse; reflexivity |].
  split.
  { rewrite fmap_imap. rewrite <- (length_reverse expenses).
    rewrite (imap_ext _ (fun n _ => n)) by reflexivity.
    rewrite imap_seq_0. apply list_fmap_id. }
  split.
  { intros i row. rewrite !list_lookup_imap.
    destruct (reverse expenses !! i) as [e |] eqn:E; [| discriminate].
    intros [= <-]. cbn [row_badge row_key renderRow].
    split; [reflexivity |]. split; [apply COLORS_defined | reflexivity]. }
  split; [| apply length_imap].
  apply Forall_forall. intros o Ho. apply list_elem_of_lookup in Ho as [i Hi].
  rewrite list_lookup_imap in Hi.
  destruct (getCategoryData _ _ expenses !! i); [| discriminate].
  injection Hi as <-. apply COLORS_defined.
Qed.

(** ** Filling the form *)

Lemma step_form (ev : Event) (w : World) :
  on_tab "expenses" (app w) = true ->
  match ev with
  | ChangeAmount _ | ChangeDescription _ => True
  | ChangeCategory option => option ∈ category_options
  | _ => False
  end ->
  step ev w = Some {| app := reduce ev (app w); inflight := inflight w;
                      performed := performed w; uncaught := uncaught w |}.
Proof.
  intros T G. unfold step, guard.
  destruct ev; try contradiction; rewrite T, ?dispatch_modify;
    rewrite ?bool_decide_eq_true_2 by exact G; reflexivity.
Qed.

(** X17. The three fields of the form are edited independently: filled
    in any order (the category from the select's options), they end up
    holding what was entered, nothing else of the state changes, and the
    add button then sends exactly these values, the amount read by
    [parseFloat], leaving the form filled until the reply. *)
Theorem form_fields_independent (w : World) (a c d now : jsstring) (edits : list Event) :
  on_tab "expenses" (app w) = true ->
  c ∈ category_options ->
  edits ≡ₚ [ChangeAmount a; ChangeCategory c; ChangeDescription d] ->
  let form := {| new_amount := a; new_category := c; new_description := d |} in
  exists w',
    run (edits ++ [ClickAddExpense now]) w = Some w' /\
    app w' = setNewExpense form (app w) /\
    inflight w' = inflight w ++ [(AddExpense, addExpenseRequest form now)].
Proof.
  intros T C P form. symmetry in P. apply permutations_Permutation in P.
  assert (S : forall ev w0, on_tab "expenses" (app w0) = true ->
              ev ∈ [ChangeAmount a; ChangeCategory c; ChangeDescription d] ->
              step ev w0 = Some {| app := reduce ev (app w0); inflight := inflight w0;
                                   performed := performed w0; uncaught := uncaught w0 |}).
  { intros ev w0 T0 Hin. apply step_form; [exact T0 |].
    repeat (apply elem_of_cons in Hin as [-> | Hin]; [exact I || exact C |]).
    inversion Hin. }
  assert (K : forall w0 now0, on_tab "expenses" (app w0) = true ->
              step (ClickAddExpense now0) w0
              = Some (dispatch (handleAddExpense now0) w0)).
  { intros w0 now0 T0. unfold step, guard. rewrite T0. reflexivity. }
  cbn in P.
  repeat (apply elem_of_cons in P as [-> | P];
          [ cbn [run Datatypes.app mbind option_bind];
            rewrite S by (exact T || (repeat constructor)); cbn [mbind option_bind];
            rewrite S by (exact T || (repeat constructor)); cbn [mbind option_bind];
            rewrite S by (exact T || (repeat constructor)); cbn [mbind option_bind];
            rewrite K by exact T;
            rewrite (dispatch_normal _ _ _ (handleAddExpense_eq now _ []));
            eexists; split; [reflexivity |]; split; reflexivity
          |]).
  inversion P.
Qed.

Lemma form_fields_independent_backwards :
  let w := after [ClickTab (lit "expenses")] in
  let now := lit "2024-05-02T12:00:00.000Z" in
  let form := {| new_amount := lit "500"; new_category := lit "Food";
                 new_description := lit "Lunch" |} in
  exists w',
    run ([ChangeDescription (lit "Lunch"); ChangeCategory (lit "Food");
          ChangeAmount (lit "500")] ++ [ClickAddExpense now]) w = Some w' /\
    app w' = setNewExpense form (app w) /\
    inflight w' = inflight w ++ [(AddExpense, addExpenseRequest form now)].
Proof.
  apply (form_fields_independent (after [ClickTab (lit "expenses")])
           (lit "500") (lit "Food") (lit "Lunch") (lit "2024-05-02T12:00:00.000Z")).
  - vm_compute. reflexivity.
  - do 1 apply list_elem_of_further. apply list_elem_of_here.
  - apply Permutation_rev.
Defined.
